(** * COLREG quiz: the assessment session engine of [src/index.tsx]

    The React component [App] keeps the whole session in seven [useState]
    cells.  The embedding below gathers them in one record, turns every
    event handler into a function on that record, the timer [useEffect]
    into an effect function run after each render, and [generatePDF] into
    the list of drawing calls it makes on the jsPDF document. *)

From Stdlib Require Import ZArith String Ascii Floats Uint63 DecimalString.
From stdpp Require Import base option list strings.

Local Open Scope string_scope.
Local Open Scope list_scope.
Local Open Scope Z_scope.

(** ** Data model *)

(** [interface QuizQuestion].  [correctAnswerIndex] is whatever integer the
    generation service sent: nothing in the source bounds it. *)
Record QuizQuestion := mkQuizQuestion {
  question : string;
  options : list string;
  correctAnswerIndex : Z;
  explanation : string
}.

(** [interface UserProfile]. *)
Record UserProfile := mkUserProfile {
  name : string;
  rank : string;
  vessel : string
}.

(** The string literal union of the [step] cell. *)
Inductive Step := StepProfile | StepLoading | StepQuiz | StepResults.

#[global] Instance Step_eq_dec : EqDecision Step.
Proof. solve_decision. Defined.

(** The [useState] cells of [App]. *)
Record Session := mkSession {
  step : Step;
  profile : UserProfile;
  questions : list QuizQuestion;
  currentQuestionIndex : Z;
  answers : list Z;
  error : option string;
  timeLeft : Z
}.

(** The initial values handed to [useState]. *)
Definition initialSession : Session :=
  {| step := StepProfile;
     profile := {| name := ""; rank := ""; vessel := "" |};
     questions := [];
     currentQuestionIndex := 0;
     answers := [];
     error := None;
     timeLeft := 600 |}.

(** The state setters returned by [useState]. *)
Definition setStep (v : Step) (s : Session) : Session :=
  {| step := v; profile := profile s; questions := questions s;
     currentQuestionIndex := currentQuestionIndex s; answers := answers s;
     error := error s; timeLeft := timeLeft s |}.

Definition setProfile (v : UserProfile) (s : Session) : Session :=
  {| step := step s; profile := v; questions := questions s;
     currentQuestionIndex := currentQuestionIndex s; answers := answers s;
     error := error s; timeLeft := timeLeft s |}.

Definition setQuestions (v : list QuizQuestion) (s : Session) : Session :=
  {| step := step s; profile := profile s; questions := v;
     currentQuestionIndex := currentQuestionIndex s; answers := answers s;
     error := error s; timeLeft := timeLeft s |}.

Definition setCurrentQuestionIndex (v : Z) (s : Session) : Session :=
  {| step := step s; profile := profile s; questions := questions s;
     currentQuestionIndex := v; answers := answers s;
     error := error s; timeLeft := timeLeft s |}.

Definition setAnswers (v : list Z) (s : Session) : Session :=
  {| step := step s; profile := profile s; questions := questions s;
     currentQuestionIndex := currentQuestionIndex s; answers := v;
     error := error s; timeLeft := timeLeft s |}.

Definition setError (v : option string) (s : Session) : Session :=
  {| step := step s; profile := profile s; questions := questions s;
     currentQuestionIndex := currentQuestionIndex s; answers := answers s;
     error := v; timeLeft := timeLeft s |}.

Definition setTimeLeft (v : Z) (s : Session) : Session :=
  {| step := step s; profile := profile s; questions := questions s;
     currentQuestionIndex := currentQuestionIndex s; answers := answers s;
     error := error s; timeLeft := v |}.

(** JavaScript truthiness of a string: only the empty string is falsy. *)
Definition falsy (v : string) : bool := String.eqb v "".

(** [questions.length] as a JavaScript number. *)
Definition questions_length (s : Session) : Z := Z.of_nat (length (questions s)).

(** ** Timer logic (the [useEffect] on [step] and [timeLeft]) *)

(** The first branch of the effect arms a one-second interval. *)
Definition timerArmed (s : Session) : bool :=
  bool_decide (step s = StepQuiz) && (0 <? timeLeft s).

(** The interval callback: [setTimeLeft((prev) => prev - 1)]. *)
Definition intervalCallback (s : Session) : Session :=
  setTimeLeft (timeLeft s - 1) s.

(** The state change the effect itself makes when it runs after a render:
    nothing in the first branch (it only arms the interval), [setStep("results")]
    in the second, nothing otherwise. *)
Definition timerEffect (s : Session) : Session :=
  if bool_decide (step s = StepQuiz) && (0 <? timeLeft s) then s
  else if bool_decide (step s = StepQuiz) && (timeLeft s =? 0) then
    setStep StepResults s
  else s.

(** One firing of the interval: it exists only while the effect armed it;
    the callback changes [timeLeft], the component renders again and the
    effect runs on the new state. *)
Definition tick (s : Session) : Session :=
  if timerArmed s then timerEffect (intervalCallback s) else s.

(** ** Event handlers *)

(** [handleProfileSubmit], up to the call of [generateQuiz]. *)
Definition handleProfileSubmit (s : Session) : Session :=
  if falsy (name (profile s)) || falsy (rank (profile s))
     || falsy (vessel (profile s))
  then setError (Some "Please fill in all fields.") s
  else setStep StepLoading (setError None s).

(** What the [try] block of [generateQuiz] can meet.  [GenRejected]: the
    awaited [generateContent] call throws; [GenNoText]: [response.text] is
    falsy; [GenBadJson]: [JSON.parse] throws; [GenParsed qs]: [JSON.parse]
    returns, and the value is the array of question objects the response
    schema asks for. *)
Inductive GenOutcome :=
| GenRejected
| GenNoText
| GenBadJson
| GenParsed (generatedQuestions : list QuizQuestion).

Definition generateQuiz (r : GenOutcome) (s : Session) : Session :=
  match r with
  | GenParsed generatedQuestions =>
      setStep StepQuiz (setTimeLeft 600 (setQuestions generatedQuestions s))
  | _ =>
      setStep StepProfile
        (setError
           (Some "Failed to generate quiz. Please try again or check your connection.")
           s)
  end.

Definition handleAnswer (optionIndex : Z) (s : Session) : Session :=
  let newAnswers := answers s ++ [optionIndex] in
  let s1 := setAnswers newAnswers s in
  if currentQuestionIndex s <? questions_length s - 1
  then setCurrentQuestionIndex (currentQuestionIndex s + 1) s1
  else setStep StepResults s1.

Definition restartQuiz (s : Session) : Session :=
  setTimeLeft 600
    (setError None
       (setCurrentQuestionIndex 0
          (setAnswers [] (setQuestions [] (setStep StepProfile s))))).

(** ** Scoring *)

(** [Array.prototype.forEach] with its index argument, threading the
    variables the callback assigns. *)
Fixpoint forEach {A St : Type} (f : A -> nat -> St -> St)
    (l : list A) (i : nat) (st : St) : St :=
  match l with
  | [] => st
  | x :: l' => forEach f l' (S i) (f x i st)
  end.

(** [answers[i] !== undefined && answers[i] === q.correctAnswerIndex]. *)
Definition isHit (ans : list Z) (q : QuizQuestion) (i : nat) : bool :=
  match ans !! i with
  | Some a => a =? correctAnswerIndex q
  | None => false
  end.

Definition calculateScore (s : Session) : nat :=
  forEach (fun q i score => if isHit (answers s) q i then S score else score)
    (questions s) 0%nat 0%nat.

(** ** Rendering and the events the rendered page offers *)

(** [arr[i]] for a JavaScript number [i] that is an integer: [undefined]
    ([None]) outside the array. *)
Definition jsIndex {A : Type} (l : list A) (i : Z) : option A :=
  if i <? 0 then None else l !! Z.to_nat i.

(** The pass mark of the results branch and of the report. *)
Definition passMark (score : nat) : bool := (7 <=? score)%nat.

(** What the results branch of [App] computes and shows. *)
Record ResultsView := mkResultsView {
  rv_score : nat;
  rv_total : nat;
  rv_passed : bool;
  rv_verdict : string
}.

Definition resultsView (s : Session) : ResultsView :=
  let score := calculateScore s in
  let passed := passMark score in
  {| rv_score := score;
     rv_total := length (questions s);
     rv_passed := passed;
     rv_verdict := if passed then "COMPETENT" else "NOT YET COMPETENT" |}.

(** The branch of [App]'s body that produces the page.  [ViewError] is the
    quiz branch reading [question.question] of an [undefined] question. *)
Inductive View :=
| ViewProfile (err : option string)
| ViewLoading
| ViewQuiz (q : QuizQuestion)
| ViewResults (r : ResultsView)
| ViewNull
| ViewError.

Definition render (s : Session) : View :=
  match step s with
  | StepProfile => ViewProfile (error s)
  | StepLoading => ViewLoading
  | StepQuiz =>
      if 0 <? questions_length s then
        match jsIndex (questions s) (currentQuestionIndex s) with
        | Some q => ViewQuiz q
        | None => ViewError
        end
      else ViewNull
  | StepResults => ViewResults (resultsView s)
  end.

Inductive ProfileField := FieldName | FieldRank | FieldVessel.

(** [{...profile, name: v}] and its two siblings. *)
Definition withField (f : ProfileField) (v : string) (p : UserProfile)
    : UserProfile :=
  match f with
  | FieldName => {| name := v; rank := rank p; vessel := vessel p |}
  | FieldRank => {| name := name p; rank := v; vessel := vessel p |}
  | FieldVessel => {| name := name p; rank := rank p; vessel := v |}
  end.

(** Everything that changes the session: the handlers wired to the page,
    the settling of the awaited generation call and the interval. *)
Inductive Event :=
| EvInput (f : ProfileField) (v : string)
| EvSubmit
| EvGenerated (r : GenOutcome)
| EvAnswer (idx : nat)
| EvDownload
| EvRestart
| EvTick.

(** The handler an event runs, [None] when the page on screen does not
    offer it: the form exists in the profile view only, the option buttons
    of the current question in the quiz view only, the two result buttons
    in the results view only, and a generation call is pending exactly
    while the loading view is shown. *)
Definition handler (e : Event) (s : Session) : option Session :=
  match e, render s with
  | EvInput f v, ViewProfile _ => Some (setProfile (withField f v (profile s)) s)
  | EvSubmit, ViewProfile _ => Some (handleProfileSubmit s)
  | EvGenerated r, ViewLoading => Some (generateQuiz r s)
  | EvAnswer idx, ViewQuiz q =>
      if (idx <? length (options q))%nat
      then Some (handleAnswer (Z.of_nat idx) s) else None
  | EvDownload, ViewResults _ => Some s
  | EvRestart, ViewResults _ => Some (restartQuiz s)
  | _, _ => None
  end.

(** A handler's state changes are followed by a render and the timer
    effect; the interval callback likewise (see [tick]). *)
Definition dispatch (e : Event) (s : Session) : option Session :=
  match e with
  | EvTick => Some (tick s)
  | _ => timerEffect <$> handler e s
  end.

Fixpoint run (evs : list Event) (s : Session) : option Session :=
  match evs with
  | [] => Some s
  | e :: evs' =>
      match dispatch e s with
      | Some s' => run evs' s'
      | None => None
      end
  end.

Definition reachable (s : Session) : Prop :=
  exists evs, run evs initialSession = Some s.

(** ** JavaScript numbers and template strings used by the report *)

(** [Number.prototype.toString] of an integer (the form template strings
    use for magnitudes below 10^21). *)
Definition showInt (n : Z) : string := NilZero.string_of_int (Z.to_int n).

(** A count or array length as the IEEE 754 double it is in JavaScript
    (exact below 2^53). *)
Definition toNumber (n : nat) : float :=
  PrimFloat.of_uint63 (Uint63.of_Z (Z.of_nat n)).

(** The value [Math.round] returns: [NaN], an infinity, or an integer
    (the sign of a zero result is dropped, as its printed form drops it). *)
Inductive Rounded :=
| RoundedNaN
| RoundedInfinity (negative : bool)
| RoundedInt (n : Z).

(** [Math.round]: the nearest integer, ties towards +infinity, that is
    floor(x + 1/2) computed exactly on the mantissa and exponent of [x]. *)
Definition Math_round (x : float) : Rounded :=
  match Prim2SF x with
  | S754_nan => RoundedNaN
  | S754_infinity sg => RoundedInfinity sg
  | S754_zero _ => RoundedInt 0
  | S754_finite sg m e =>
      let n := if sg then Z.neg m else Z.pos m in
      if 0 <=? e then RoundedInt (n * 2 ^ e)
      else RoundedInt ((2 * n + 2 ^ (- e)) / 2 ^ (1 - e))
  end.

Definition showRounded (r : Rounded) : string :=
  match r with
  | RoundedNaN => "NaN"
  | RoundedInfinity false => "Infinity"
  | RoundedInfinity true => "-Infinity"
  | RoundedInt n => showInt n
  end.

(** [Math.round((score/total)*100)]. *)
Definition percentage (score total : nat) : Rounded :=
  Math_round ((toNumber score / toNumber total) * toNumber 100)%float.

(** A template string prints an [undefined] value as the word. *)
Definition showOptional (v : option string) : string :=
  match v with
  | Some t => t
  | None => "undefined"
  end.

(** The white space class of a regular expression, on ASCII text. *)
Definition isWhiteSpace (c : ascii) : bool :=
  match N_of_ascii c with
  | 9%N | 10%N | 11%N | 12%N | 13%N | 32%N => true
  | _ => false
  end.

(** [v.replace(/\s+/g, '_')]: every maximal run of white space becomes one
    underscore.  [inRun] tells that the previous character was white. *)
Fixpoint replaceWhiteSpace (inRun : bool) (v : string) : string :=
  match v with
  | EmptyString => EmptyString
  | String c v' =>
      if isWhiteSpace c then
        if inRun then replaceWhiteSpace true v'
        else String "_"%char (replaceWhiteSpace true v')
      else String c (replaceWhiteSpace false v')
  end.

(** ** The report: the calls [generatePDF] makes on the jsPDF document *)

Inductive DocCall :=
| SetTextColor (r g b : Z)
| SetFont (family style : string)
| SetFontSize (size : Z)
| SetDrawColor (r g b : Z)
| SetLineWidth (w : Z)
| SetFillColor (r g b : Z)
| Line (x1 y1 x2 y2 : Z)
| Rect (x y w h : Z) (style : string)
| Text (t : string) (x y : Z) (align : option string)
| TextLines (ts : list string) (x y : Z)
| AddPage
| SetPage (n : nat)
| Save (filename : string).

(** The strings a call paints, if any. *)
Definition paints (c : DocCall) : option (list string) :=
  match c with
  | Text t _ _ _ => Some [t]
  | TextLines ts _ _ => Some ts
  | _ => None
  end.

(** The painted texts of a sequence of calls, in order. *)
Definition textsOf (doc : list DocCall) : list (list string) :=
  omap paints doc.

Definition isAddPage (c : DocCall) : bool :=
  match c with
  | AddPage => true
  | _ => false
  end.

(** [doc.internal.getNumberOfPages()]: the first page and one per
    [addPage]. *)
Definition getNumberOfPages (doc : list DocCall) : nat :=
  S (length (List.filter isAddPage doc)).

(** The font of the document, which jsPDF measures a text with when it
    wraps it: the last [setFont] and [setFontSize] made, starting from
    jsPDF's defaults. *)
Record Font := mkFont {
  fontName : string;
  fontStyle : string;
  fontSize : Z
}.

Definition defaultFont : Font :=
  {| fontName := "helvetica"; fontStyle := "normal"; fontSize := 16 |}.

Definition applyFont (f : Font) (c : DocCall) : Font :=
  match c with
  | SetFont family style =>
      {| fontName := family; fontStyle := style; fontSize := fontSize f |}
  | SetFontSize size =>
      {| fontName := fontName f; fontStyle := fontStyle f; fontSize := size |}
  | _ => f
  end.

Definition currentFont (doc : list DocCall) : Font :=
  fold_left applyFont doc defaultFont.

Section Report.

(** [doc.splitTextToSize] is jsPDF's text wrapping, given here the font of
    the document it is called on, and the date string is
    [new Date().toLocaleDateString()]: both come from outside the
    program. *)
Variable splitTextToSize : Font -> string -> Z -> list string.
Variable date : string.

(** Letterhead, user details box and score box. *)
Definition reportHeader (s : Session) : list DocCall :=
  let score := calculateScore s in
  let total := length (questions s) in
  let passed := passMark score in
  [ SetTextColor 0 51 102;
    SetFont "helvetica" "bold";
    SetFontSize 40;
    Text "CLdN" 15 25 None;
    SetFontSize 22;
    SetTextColor 0 51 102;
    Text "COLREGs Competency Report" 200 25 (Some "right");
    SetDrawColor 0 51 102;
    SetLineWidth 1;
    Line 15 35 200 35;
    SetFillColor 245 247 250;
    Rect 15 45 185 45 "F";
    SetTextColor 0 0 0;
    SetFontSize 12;
    SetFont "helvetica" "normal";
    Text "Date:" 25 55 None;
    SetFont "helvetica" "bold";
    Text date 55 55 None;
    SetFont "helvetica" "normal";
    Text "Name:" 25 65 None;
    SetFont "helvetica" "bold";
    Text (name (profile s)) 55 65 None;
    SetFont "helvetica" "normal";
    Text "Rank:" 25 75 None;
    SetFont "helvetica" "bold";
    Text (rank (profile s)) 55 75 None;
    SetFont "helvetica" "normal";
    Text "Vessel:" 25 85 None;
    SetFont "helvetica" "bold";
    Text (vessel (profile s)) 55 85 None;
    SetFontSize 14;
    SetTextColor 0 51 102;
    Text ("Final Score: " +:+ showInt (Z.of_nat score) +:+ " / "
          +:+ showInt (Z.of_nat total) +:+ " ("
          +:+ showRounded (percentage score total) +:+ "%)") 130 65 None;
    SetTextColor (if passed then 0 else 200) (if passed then 128 else 0) 0;
    SetFontSize 16;
    Text (if passed then "RESULT: PASS" else "RESULT: FAIL") 130 75 None;
    SetTextColor 0 51 102;
    SetFontSize 14;
    SetFont "helvetica" "bold";
    Text "Detailed Assessment:" 15 100 None ].

(** The body of the [questions.forEach] callback of the review, on the
    document and [yPos].  [hasAnswered] is the case [Some] of
    [ans !! i]. *)
Definition reviewQuestion (ans : list Z) (q : QuizQuestion) (i : nat)
    (st : list DocCall * Z) : list DocCall * Z :=
  let '(doc, yPos) := st in
  let '(doc, yPos) :=
    if 250 <? yPos then (doc ++ [AddPage], 20) else (doc, yPos) in
  let isCorrect := isHit ans q i in
  let userAnswer :=
    match ans !! i with
    | Some a => showOptional (jsIndex (options q) a)
    | None => "No Answer (Time expired)"
    end in
  let correctAnswer := showOptional (jsIndex (options q) (correctAnswerIndex q)) in
  let doc := doc ++ [SetFontSize 12; SetTextColor 0 0 0;
                     SetFont "helvetica" "bold"] in
  let splitQuestion :=
    splitTextToSize (currentFont doc)
      ("Q" +:+ showInt (Z.of_nat i + 1) +:+ ": " +:+ question q) 180 in
  let doc := doc ++ [TextLines splitQuestion 15 yPos] in
  let yPos := yPos + (Z.of_nat (length splitQuestion) * 5 + 2) in
  let doc := doc ++ [SetFont "helvetica" "normal";
                     SetTextColor (if isCorrect then 0 else 200)
                                  (if isCorrect then 150 else 0) 0;
                     Text (if isCorrect then "Result: CORRECT"
                           else "Result: INCORRECT") 15 yPos None] in
  let yPos := yPos + 7 in
  let doc := doc ++ [SetTextColor 50 50 50; SetFontSize 10] in
  let '(doc, yPos) :=
    if negb isCorrect
    then (doc ++ [Text ("Your Answer: " +:+ userAnswer) 15 yPos None],
          yPos + 5)
    else (doc, yPos) in
  let doc := doc ++ [Text ("Correct Answer: " +:+ correctAnswer) 15 yPos None] in
  let yPos := yPos + 6 in
  let splitExplanation :=
    splitTextToSize (currentFont doc) ("Note: " +:+ explanation q) 170 in
  let doc := doc ++ [SetTextColor 100 100 100;
                     TextLines splitExplanation 20 yPos] in
  let yPos := yPos + (Z.of_nat (length splitExplanation) * 4 + 10) in
  (doc, yPos).

(** The footer loop over the pages. *)
Definition reportFooter (pageCount : nat) : list DocCall :=
  flat_map
    (fun i => [SetPage i; SetFontSize 10; SetTextColor 150 150 150;
               Text "CLdN Competency Assurance System" 105 290
                 (Some "center")])
    (seq 1 pageCount).

Definition reportFileName (s : Session) : string :=
  replaceWhiteSpace false (name (profile s)) +:+ "_CLdN_COLREG_Report.pdf".

Definition generatePDF (s : Session) : list DocCall :=
  let doc := reportHeader s in
  let yPos := 110 in
  let '(doc, _) :=
    forEach (reviewQuestion (answers s)) (questions s) 0%nat (doc, yPos) in
  let pageCount := getNumberOfPages doc in
  doc ++ reportFooter pageCount ++ [Save (reportFileName s)].

(** The fonts of the question line and of the explanation. *)
Definition questionFont : Font :=
  {| fontName := "helvetica"; fontStyle := "bold"; fontSize := 12 |}.

Definition noteFont : Font :=
  {| fontName := "helvetica"; fontStyle := "normal"; fontSize := 10 |}.

(** The review block of question [i] as the specification lists it:
    question text, verdict, the user's answer (left out by the source
    for a correct answer), the correct answer and the explanation. *)
Definition reviewTexts (ans : list Z) (i : nat) (q : QuizQuestion)
    : list (list string) :=
  [ splitTextToSize questionFont
      ("Q" +:+ showInt (Z.of_nat i + 1) +:+ ": " +:+ question q) 180;
    [if isHit ans q i then "Result: CORRECT" else "Result: INCORRECT"] ]
  ++ (if isHit ans q i then []
      else [["Your Answer: " +:+
             match ans !! i with
             | Some a => showOptional (jsIndex (options q) a)
             | None => "No Answer (Time expired)"
             end]])
  ++ [ ["Correct Answer: " +:+
        showOptional (jsIndex (options q) (correctAnswerIndex q))];
       splitTextToSize noteFont ("Note: " +:+ explanation q) 170 ].

End Report.

(** ** Specification-side notions *)

(** Index [i] is a hit: an answer exists at [i] and equals the correct
    index of question [i]. *)
Definition hitAt (qs : list QuizQuestion) (ans : list Z) (i : nat) : bool :=
  match qs !! i, ans !! i with
  | Some q, Some a => bool_decide (a = correctAnswerIndex q)
  | _, _ => false
  end.

(** The question shape of the data model: four options and a correct index
    among them; a question set is ten of those. *)
Definition validQuestion (q : QuizQuestion) : Prop :=
  length (options q) = 4%nat /\ 0 <= correctAnswerIndex q <= 3.

Definition validQuestionSet (qs : list QuizQuestion) : Prop :=
  length qs = 10%nat /\ Forall validQuestion qs.

(** The session invariant, by step: nothing of a quiz is held before one
    starts; during the quiz the answers recorded are those of the questions
    before the current one, which exists unless the set is empty, and time
    remains; afterwards either the last question was answered or the time
    ran out on the current one. *)
Definition SessionInv (s : Session) : Prop :=
  0 <= timeLeft s /\
  match step s with
  | StepProfile | StepLoading =>
      questions s = [] /\ answers s = [] /\ currentQuestionIndex s = 0
  | StepQuiz =>
      0 < timeLeft s /\
      Z.of_nat (length (answers s)) = currentQuestionIndex s /\
      (currentQuestionIndex s < questions_length s \/
       (currentQuestionIndex s = 0 /\ questions s = []))
  | StepResults =>
      0 <= currentQuestionIndex s <= questions_length s /\
      (Z.of_nat (length (answers s)) = currentQuestionIndex s \/
       (Z.of_nat (length (answers s)) = currentQuestionIndex s + 1 /\
        currentQuestionIndex s + 1 = questions_length s))
  end.

(** What the specification asks of every session: no more answers than
    questions, the current index within the question set, and during the
    quiz exactly the questions before the current one answered. *)
Definition AnswersInOrder (s : Session) : Prop :=
  (length (answers s) <= length (questions s))%nat /\
  0 <= currentQuestionIndex s <= questions_length s /\
  (step s = StepQuiz ->
   Z.of_nat (length (answers s)) = currentQuestionIndex s).

(** A candidate's sitting: before each click on an option the interval
    fires some number of times. *)
Definition sitting (moves : list (nat * nat)) : list Event :=
  flat_map (fun m => repeat EvTick (fst m) ++ [EvAnswer (snd m)]) moves.

Definition ticksOf (moves : list (nat * nat)) : nat :=
  foldr (fun m n => (fst m + n)%nat) 0%nat moves.

(** ** Sample data *)

Definition sampleQuestion : QuizQuestion :=
  {| question := "Which vessel gives way?";
     options := ["Vessel A"; "Vessel B"; "Both"; "Neither"];
     correctAnswerIndex := 1;
     explanation := "Rule 15." |}.

(** A question the response schema lets through: two options and a correct
    index outside them. *)
Definition shortQuestion : QuizQuestion :=
  {| question := "Sound signal in fog?";
     options := ["One prolonged blast"; "Two short blasts"];
     correctAnswerIndex := 7;
     explanation := "Rule 35." |}.

Definition fillProfile : list Event :=
  [EvInput FieldName "A B"; EvInput FieldRank "Officer";
   EvInput FieldVessel "MV X"; EvSubmit].

(** A text wrapper that never breaks a line. *)
Definition noWrap (f : Font) (t : string) (width : Z) : list string := [t].

(** ** The clock and the option buttons of the quiz view *)

(** An integer as the IEEE 754 double it is in JavaScript (exact below
    2^53 in magnitude). *)
Definition toDouble (n : Z) : float :=
  if n <? 0 then (- PrimFloat.of_uint63 (Uint63.of_Z (- n)))%float
  else PrimFloat.of_uint63 (Uint63.of_Z n).

(** [Math.floor], computed exactly on the mantissa and exponent. *)
Definition Math_floor (x : float) : Rounded :=
  match Prim2SF x with
  | S754_nan => RoundedNaN
  | S754_infinity sg => RoundedInfinity sg
  | S754_zero _ => RoundedInt 0
  | S754_finite sg m e =>
      let n := if sg then Z.neg m else Z.pos m in
      if 0 <=? e then RoundedInt (n * 2 ^ e)
      else RoundedInt (n / 2 ^ (- e))
  end.

(** [v.padStart(width, fill)] for a one-character [fill]. *)
Definition padStart (width : nat) (fill : ascii) (v : string) : string :=
  string_of_list_ascii (repeat fill (width - String.length v)) +:+ v.

(** [formatTime]: [seconds % 60] is the remainder with the sign of
    [seconds]. *)
Definition formatTime (seconds : Z) : string :=
  let mins := Math_floor (toDouble seconds / toDouble 60)%float in
  let secs := Z.rem seconds 60 in
  padStart 2 "0" (showRounded mins) +:+ ":" +:+ padStart 2 "0" (showInt secs).

(** The decimal digit [d] as a character. *)
Definition digitChar (d : Z) : ascii := ascii_of_N (48 + Z.to_N d).

(** The test that highlights option button [idx]:
    [answers[currentQuestionIndex] === idx]. *)
Definition isSelected (s : Session) (idx : nat) : bool :=
  match jsIndex (answers s) (currentQuestionIndex s) with
  | Some a => a =? Z.of_nat idx
  | None => false
  end.

(** ** Further specification-side notions *)

(** The arrows of the step diagram the handlers and the timer draw, with
    a loop at every step. *)
Definition stepArrow (a b : Step) : bool :=
  match a, b with
  | StepProfile, (StepProfile | StepLoading) => true
  | StepLoading, (StepLoading | StepProfile | StepQuiz) => true
  | StepQuiz, (StepQuiz | StepResults) => true
  | StepResults, (StepResults | StepProfile) => true
  | _, _ => false
  end.

Definition isTick (e : Event) : bool :=
  match e with
  | EvTick => true
  | _ => false
  end.

Definition isGenerated (e : Event) : bool :=
  match e with
  | EvGenerated _ => true
  | _ => false
  end.

(** Every recorded answer is an option of its question. *)
Definition AnswersWithinOptions (s : Session) : Prop :=
  forall (i : nat) (a : Z),
    answers s !! i = Some a ->
    exists q t, questions s !! i = Some q /\ jsIndex (options q) a = Some t.

(** The percentage rounded half up in exact arithmetic. *)
Definition exactPercentage (score total : nat) : Z :=
  (200 * Z.of_nat score + Z.of_nat total) / (2 * Z.of_nat total).

Definition isFooterText (c : DocCall) : bool :=
  match c with
  | Text t 105 290 _ => String.eqb t "CLdN Competency Assurance System"
  | _ => false
  end.

(** The vertical positions at which the question lines are painted. *)
Definition questionLineYs (doc : list DocCall) : list Z :=
  omap (fun c => match c with
                 | TextLines _ 15 y => Some y
                 | _ => None
                 end) doc.

(** Reading a five-character clock back: minutes times 60 plus seconds. *)
Definition digitValue (c : ascii) : Z := Z.of_N (N_of_ascii c) - 48.

Definition readClock (t : string) : option Z :=
  match t with
  | String a (String b (String ":" (String c (String d EmptyString)))) =>
      Some (60 * (10 * digitValue a + digitValue b)
            + (10 * digitValue c + digitValue d))
  | _ => None
  end.

(** What holds of the cells beside [SessionInv]: the clock never shows more
    than the 600 seconds it is set to; outside the profile step no error
    message is pending and the profile is the accepted one; and every
    recorded answer is an option of its question. *)
Definition SessionShape (s : Session) : Prop :=
  timeLeft s <= 600 /\
  (step s <> StepProfile ->
   error s = None /\ name (profile s) <> "" /\ rank (profile s) <> ""
   /\ vessel (profile s) <> "") /\
  AnswersWithinOptions s.

(** The number of interval firings among some events. *)
Definition countTicks (evs : list Event) : nat :=
  length (List.filter isTick evs).

(** The clock string two digits of minutes and two of seconds make. *)
Definition clockDigits (seconds : Z) : string :=
  String (digitChar (seconds / 600))
    (String (digitChar ((seconds / 60) mod 10))
       (String ":"
          (String (digitChar ((seconds mod 60) / 10))
             (String (digitChar (seconds mod 10)) EmptyString)))).

Definition clockChecked (seconds : Z) : bool :=
  String.eqb (formatTime seconds) (clockDigits seconds)
  && match readClock (formatTime seconds) with
     | Some v => v =? seconds
     | None => false
     end.

Definition percentageChecked (total score : nat) : bool :=
  match percentage score total with
  | RoundedInt p =>
      (0 <=? p) && (p <=? 100)
      && (exactPercentage score total - 1 <=? p)
      && (p <=? exactPercentage score total)
      && ((39 <? total)%nat || (p =? exactPercentage score total))
  | _ => false
  end.

(** The calls a review block is made of: page break, font and colour
    settings, wrapped lines and lines of text in the left column. *)
Definition blockCall (c : DocCall) : bool :=
  match c with
  | AddPage | SetFontSize _ | SetTextColor _ _ _ | SetFont _ _
  | TextLines _ _ _ | Text _ 15 _ None => true
  | _ => false
  end.

(** The page a [setPage] call turns to. *)
Definition pageTurned (c : DocCall) : option nat :=
  match c with
  | SetPage n => Some n
  | _ => None
  end.

(** Question lines following one another down a page at least 25 units
    apart, or starting a new page at 20. *)
Fixpoint spaced (ys : list Z) : Prop :=
  match ys with
  | y1 :: ((y2 :: _) as rest) => (y2 = 20 \/ y1 + 25 <= y2) /\ spaced rest
  | _ => True
  end.

(** Membership of a call or text in an explicit list that holds nothing
    equal to it. *)
Ltac not_listed H :=
  repeat (destruct H as [H|H]; [discriminate H|]); exact H.

(** * Scoring *)

Lemma forEach_score_from (ans : list Z) (pre l : list QuizQuestion) (acc : nat) :
  forEach (fun q i score => if isHit ans q i then S score else score)
    l (length pre) acc
  = (acc + length (List.filter (hitAt (pre ++ l) ans)
                      (seq (length pre) (length l))))%nat.
Proof.
  revert pre acc.
  induction l as [|q l IH]; intros pre acc.
  - simpl. lia.
  - cbn [forEach length seq List.filter].
    replace (S (length pre)) with (length (pre ++ [q])) by (rewrite length_app; simpl; lia).
    rewrite IH.
    rewrite <- app_assoc. cbn [app].
    assert (Hhit : hitAt (pre ++ q :: l) ans (length pre) = isHit ans q (length pre)).
    { unfold hitAt, isHit.
      rewrite lookup_app_r by lia.
      rewrite Nat.sub_diag. cbn.
      destruct (ans !! length pre) as [a|]; [|reflexivity].
      destruct (Z.eqb_spec a (correctAnswerIndex q)) as [->|Hne].
      - rewrite bool_decide_eq_true_2; reflexivity.
      - rewrite bool_decide_eq_false_2; auto. }
    rewrite Hhit.
    destruct (isHit ans q (length pre)); cbn [length]; lia.
Qed.

Lemma filter_length_le {A} (f : A -> bool) (l : list A) :
  (length (List.filter f l) <= length l)%nat.
Proof.
  induction l as [|x l IH]; simpl; [lia|].
  destruct (f x); simpl; lia.
Qed.

Lemma calculateScore_filter (s : Session) :
  calculateScore s
  = length (List.filter (hitAt (questions s) (answers s))
              (seq 0 (length (questions s)))).
Proof.
  unfold calculateScore.
  apply (forEach_score_from (answers s) [] (questions s) 0%nat).
Qed.

Lemma calculateScore_le (s : Session) :
  (calculateScore s <= length (questions s))%nat.
Proof.
  rewrite calculateScore_filter.
  etransitivity; [apply filter_length_le|].
  rewrite length_seq. lia.
Qed.

(** C4. The score is the number of indices below the question count at
    which an answer exists and equals the question's correct index; the
    total shown is the question count; the score never exceeds it, and an
    index without an answer is not a hit. *)
Theorem calculateScore_counts_hits (s : Session) :
  calculateScore s
  = length (List.filter (hitAt (questions s) (answers s))
              (seq 0 (length (questions s))))
  /\ (forall i : nat,
        hitAt (questions s) (answers s) i = true <->
        exists q a, questions s !! i = Some q /\ answers s !! i = Some a /\
                    a = correctAnswerIndex q)
  /\ rv_score (resultsView s) = calculateScore s
  /\ rv_total (resultsView s) = length (questions s)
  /\ (calculateScore s <= length (questions s))%nat
  /\ (forall i : nat, answers s !! i = None ->
        hitAt (questions s) (answers s) i = false).
Proof.
  split; [apply calculateScore_filter|].
  split.
  { intros i. unfold hitAt.
    destruct (questions s !! i) as [q|], (answers s !! i) as [a|].
    - rewrite bool_decide_eq_true. split.
      + intros ->. eauto.
      + intros (q' & a' & Hq & Ha & ->). congruence.
    - split; [discriminate|]. intros (? & ? & _ & ? & _). discriminate.
    - split; [discriminate|]. intros (? & ? & ? & _). discriminate.
    - split; [discriminate|]. intros (? & ? & ? & _). discriminate. }
  split; [reflexivity|].
  split; [reflexivity|].
  split; [apply calculateScore_le|].
  intros i Hi. unfold hitAt. rewrite Hi.
  destruct (questions s !! i); reflexivity.
Qed.

(** * Restart *)

(** C1 (amended). The restart operation, from any session, returns to the
    profile step with no questions, no answers, current index 0, no error
    message and 600 seconds; the profile is kept as it was. *)
Theorem restartQuiz_resets_all_but_profile (s : Session) :
  restartQuiz s =
  {| step := StepProfile;
     profile := profile s;
     questions := [];
     currentQuestionIndex := 0;
     answers := [];
     error := None;
     timeLeft := 600 |}.
Proof. reflexivity. Qed.

(** C1, as stated, fails: after a completed sitting the restart leaves the
    three profile fields filled, so the session is not the empty one. *)
Lemma restartQuiz_keeps_profile :
  exists s,
    run (fillProfile ++ [EvGenerated (GenParsed [sampleQuestion]); EvAnswer 1%nat])
      initialSession = Some s
    /\ step s = StepResults
    /\ profile (restartQuiz s)
       = {| name := "A B"; rank := "Officer"; vessel := "MV X" |}
    /\ restartQuiz s <> initialSession.
Proof.
  eexists. split; [vm_compute; reflexivity|].
  split; [reflexivity|].
  split; [reflexivity|].
  discriminate.
Qed.

(** * Timer effect: basic facts *)

Lemma timerEffect_inert (s : Session) :
  step s <> StepQuiz -> timerEffect s = s.
Proof.
  intros H. unfold timerEffect.
  rewrite bool_decide_eq_false_2 by exact H. reflexivity.
Qed.

Lemma timerEffect_armed (s : Session) :
  0 < timeLeft s -> timerEffect s = s.
Proof.
  intros H. unfold timerEffect.
  destruct (bool_decide (step s = StepQuiz)); [|reflexivity].
  cbn. destruct (Z.ltb_spec 0 (timeLeft s)); [reflexivity|lia].
Qed.

Lemma timerEffect_expired (s : Session) :
  step s = StepQuiz -> timeLeft s = 0 -> timerEffect s = setStep StepResults s.
Proof.
  intros Hq H0. unfold timerEffect.
  rewrite bool_decide_eq_true_2 by exact Hq. rewrite H0. reflexivity.
Qed.

(** * Profile submission *)

Lemma falsy_spec (v : string) : falsy v = true <-> v = "".
Proof. unfold falsy. apply String.eqb_eq. Qed.

Lemma falsy_false (v : string) : falsy v = false <-> v <> "".
Proof. unfold falsy. apply String.eqb_neq. Qed.

(** C7. In the profile step a submission moves to the loading step only
    when name, rank and vessel are all non-empty (clearing the error
    message); with any of them empty the only change is the validation
    message, and the step stays the profile step. *)
Theorem handleProfileSubmit_validates (s : Session) :
  step s = StepProfile ->
  (name (profile s) <> "" /\ rank (profile s) <> "" /\ vessel (profile s) <> "" ->
   dispatch EvSubmit s = Some (setStep StepLoading (setError None s)))
  /\ (name (profile s) = "" \/ rank (profile s) = "" \/ vessel (profile s) = "" ->
      dispatch EvSubmit s
      = Some (setError (Some "Please fill in all fields.") s)
      /\ step (setError (Some "Please fill in all fields.") s) = StepProfile)
  /\ (forall s', dispatch EvSubmit s = Some s' ->
      (step s' = StepLoading <->
       name (profile s) <> "" /\ rank (profile s) <> "" /\ vessel (profile s) <> "")).
Proof.
  intros Hstep.
  assert (Hd : dispatch EvSubmit s = Some (timerEffect (handleProfileSubmit s))).
  { unfold dispatch, handler, render. rewrite Hstep. reflexivity. }
  assert (Hvalid : name (profile s) <> "" /\ rank (profile s) <> ""
                   /\ vessel (profile s) <> "" ->
                   handleProfileSubmit s = setStep StepLoading (setError None s)).
  { intros (Hn & Hr & Hv). unfold handleProfileSubmit.
    apply falsy_false in Hn, Hr, Hv. rewrite Hn, Hr, Hv. reflexivity. }
  assert (Hinvalid : name (profile s) = "" \/ rank (profile s) = ""
                     \/ vessel (profile s) = "" ->
                     handleProfileSubmit s
                     = setError (Some "Please fill in all fields.") s).
  { intros H. unfold handleProfileSubmit.
    destruct H as [H|[H|H]]; apply falsy_spec in H; rewrite H;
      rewrite ?orb_true_r; reflexivity. }
  split; [|split].
  - intros H. rewrite Hd, (Hvalid H). reflexivity.
  - intros H. rewrite Hd, (Hinvalid H). split; [|exact Hstep].
    rewrite timerEffect_inert; [reflexivity|].
    cbn [step setError]. rewrite Hstep. discriminate.
  - intros s' Hs'. rewrite Hd in Hs'. injection Hs' as <-.
    destruct (string_dec (name (profile s)) "") as [Hn|Hn];
      [|destruct (string_dec (rank (profile s)) "") as [Hr|Hr];
        [|destruct (string_dec (vessel (profile s)) "") as [Hv|Hv]]].
    4: { rewrite Hvalid by auto. split; [auto|]. reflexivity. }
    all: rewrite Hinvalid by auto;
      rewrite timerEffect_inert
        by (cbn [step setError]; rewrite Hstep; discriminate);
      cbn [step setError]; rewrite Hstep;
      split; [discriminate|]; intros (? & ? & ?); contradiction.
Qed.

Lemma handleProfileSubmit_validates_witness :
  dispatch EvSubmit initialSession
  = Some (setError (Some "Please fill in all fields.") initialSession).
Proof.
  apply (handleProfileSubmit_validates initialSession eq_refl).
  left. reflexivity.
Defined.

(** * The session state machine *)

Lemma run_app (evs1 evs2 : list Event) (s : Session) :
  run (evs1 ++ evs2) s = run evs1 s ≫= run evs2.
Proof.
  revert s. induction evs1 as [|e evs1 IH]; intros s; [reflexivity|].
  cbn [app run]. destruct (dispatch e s) as [s'|]; [apply IH|reflexivity].
Qed.

Lemma reachable_initial : reachable initialSession.
Proof. exists []. reflexivity. Qed.

Lemma reachable_dispatch (s s' : Session) (e : Event) :
  reachable s -> dispatch e s = Some s' -> reachable s'.
Proof.
  intros [evs Hevs] Hd. exists (evs ++ [e]).
  rewrite run_app, Hevs. cbn. rewrite Hd. reflexivity.
Qed.

Lemma reachable_ind' (P : Session -> Prop) :
  P initialSession ->
  (forall s e s', reachable s -> P s -> dispatch e s = Some s' -> P s') ->
  forall s, reachable s -> P s.
Proof.
  intros Hinit Hstep s [evs Hevs]. revert s Hevs.
  induction evs as [|e evs IH] using rev_ind; intros s Hevs.
  - cbn in Hevs. injection Hevs as <-. exact Hinit.
  - rewrite run_app in Hevs.
    destruct (run evs initialSession) as [s0|] eqn:Hs0; [|discriminate].
    cbn in Hevs. destruct (dispatch e s0) as [s1|] eqn:Hd; [|discriminate].
    injection Hevs as <-.
    apply (Hstep s0 e s1); [exists evs; exact Hs0|apply IH; reflexivity|exact Hd].
Qed.

(** The quiz view is offered exactly for a current question of a running
    quiz. *)
Lemma render_quiz (s : Session) (q : QuizQuestion) :
  render s = ViewQuiz q ->
  step s = StepQuiz /\ 0 < questions_length s /\
  jsIndex (questions s) (currentQuestionIndex s) = Some q.
Proof.
  unfold render. destruct (step s); try discriminate.
  destruct (Z.ltb_spec 0 (questions_length s)); [|discriminate].
  destruct (jsIndex _ _) as [q'|]; [|discriminate].
  intros [= ->]. auto.
Qed.

Lemma render_profile (s : Session) (err : option string) :
  render s = ViewProfile err -> step s = StepProfile.
Proof.
  unfold render. destruct (step s); try discriminate; [reflexivity|].
  destruct (0 <? _); [destruct (jsIndex _ _)|]; discriminate.
Qed.

Lemma render_loading (s : Session) :
  render s = ViewLoading -> step s = StepLoading.
Proof.
  unfold render. destruct (step s); try discriminate; [reflexivity|].
  destruct (0 <? _); [destruct (jsIndex _ _)|]; discriminate.
Qed.

Lemma render_results (s : Session) (r : ResultsView) :
  render s = ViewResults r -> step s = StepResults.
Proof.
  unfold render. destruct (step s); try discriminate; [|reflexivity].
  destruct (0 <? _); [destruct (jsIndex _ _)|]; discriminate.
Qed.

(** What each event does when the page offers it. *)
Lemma dispatch_cases (e : Event) (s s' : Session) :
  dispatch e s = Some s' ->
  match e with
  | EvInput f v =>
      step s = StepProfile /\ s' = setProfile (withField f v (profile s)) s
  | EvSubmit =>
      step s = StepProfile /\ s' = handleProfileSubmit s
  | EvGenerated r =>
      step s = StepLoading /\ s' = timerEffect (generateQuiz r s)
  | EvAnswer idx =>
      exists q, render s = ViewQuiz q /\ (idx < length (options q))%nat /\
                s' = timerEffect (handleAnswer (Z.of_nat idx) s)
  | EvDownload => step s = StepResults /\ s' = s
  | EvRestart => step s = StepResults /\ s' = restartQuiz s
  | EvTick => s' = tick s
  end.
Proof.
  destruct e; cbn [dispatch handler]; try (intros [= <-]; reflexivity).
  - destruct (render s) eqn:Hr; try discriminate.
    apply render_profile in Hr. cbn. intros [= <-]. split; [exact Hr|].
    apply timerEffect_inert. cbn. rewrite Hr. discriminate.
  - destruct (render s) eqn:Hr; try discriminate.
    apply render_profile in Hr. cbn. intros [= <-]. split; [exact Hr|].
    apply timerEffect_inert. unfold handleProfileSubmit.
    destruct (_ || _); cbn; [rewrite Hr|]; discriminate.
  - destruct (render s) eqn:Hr; try discriminate.
    apply render_loading in Hr. cbn. intros [= <-]. auto.
  - destruct (render s) eqn:Hr; try discriminate.
    destruct (Nat.ltb_spec idx (length (options q))); [|discriminate].
    cbn. intros [= <-]. eauto.
  - destruct (render s) eqn:Hr; try discriminate.
    apply render_results in Hr. cbn. intros [= <-]. split; [exact Hr|].
    apply timerEffect_inert. rewrite Hr. discriminate.
  - destruct (render s) eqn:Hr; try discriminate.
    apply render_results in Hr. cbn. intros [= <-]. split; [exact Hr|].
    apply timerEffect_inert. cbn. discriminate.
Qed.

(** * The countdown *)

Lemma tick_running (s : Session) :
  step s = StepQuiz -> 1 < timeLeft s ->
  tick s = setTimeLeft (timeLeft s - 1) s.
Proof.
  intros Hq Ht. unfold tick, timerArmed.
  rewrite bool_decide_eq_true_2 by exact Hq.
  destruct (Z.ltb_spec 0 (timeLeft s)); [|lia]. cbn [andb].
  apply timerEffect_armed. cbn. lia.
Qed.

Lemma tick_last (s : Session) :
  step s = StepQuiz -> timeLeft s = 1 ->
  tick s = setStep StepResults (setTimeLeft 0 s).
Proof.
  intros Hq Ht. unfold tick, timerArmed.
  rewrite bool_decide_eq_true_2 by exact Hq.
  rewrite Ht. cbn [andb Z.ltb Z.compare].
  unfold intervalCallback. rewrite Ht.
  apply timerEffect_expired; [exact Hq|reflexivity].
Qed.

Lemma tick_inert (s : Session) :
  step s <> StepQuiz -> tick s = s.
Proof.
  intros Hq. unfold tick, timerArmed.
  rewrite bool_decide_eq_false_2 by exact Hq. reflexivity.
Qed.

Lemma tick_expired (s : Session) :
  timeLeft s <= 0 -> tick s = s.
Proof.
  intros Ht. unfold tick, timerArmed.
  destruct (Z.ltb_spec 0 (timeLeft s)); [lia|].
  rewrite andb_false_r. reflexivity.
Qed.

(** The countdown run to its end: as many firings as seconds remain. *)
Lemma iter_tick_expires (n : nat) (s : Session) :
  step s = StepQuiz -> timeLeft s = Z.of_nat (S n) ->
  Nat.iter (S n) tick s = setStep StepResults (setTimeLeft 0 s).
Proof.
  revert s. induction n as [|n IH]; intros s Hq Ht.
  - cbn. apply tick_last; [exact Hq|lia].
  - rewrite Nat.iter_succ_r.
    rewrite tick_running by (auto; lia).
    rewrite IH; [reflexivity|exact Hq|cbn; lia].
Qed.

(** Firings that leave time on the clock only lower [timeLeft]. *)
Lemma run_ticks (k : nat) (s : Session) :
  step s = StepQuiz -> Z.of_nat k < timeLeft s ->
  run (repeat EvTick k) s = Some (setTimeLeft (timeLeft s - Z.of_nat k) s).
Proof.
  revert s. induction k as [|k IH]; intros s Hq Ht.
  - cbn [repeat run Z.of_nat]. rewrite Z.sub_0_r. destruct s. reflexivity.
  - cbn [repeat run dispatch].
    rewrite tick_running by (auto; lia).
    rewrite IH by (cbn [step timeLeft setTimeLeft]; auto; lia).
    cbn [timeLeft setTimeLeft]. unfold setTimeLeft. cbn [step profile questions
      currentQuestionIndex answers error timeLeft].
    do 2 f_equal. lia.
Qed.

(** * The invariant *)

Lemma SessionInv_initial : SessionInv initialSession.
Proof. unfold SessionInv. cbn. split; [lia|auto]. Qed.

Lemma jsIndex_Some {A : Type} (l : list A) (i : Z) (x : A) :
  jsIndex l i = Some x -> 0 <= i < Z.of_nat (length l) /\ l !! Z.to_nat i = Some x.
Proof.
  unfold jsIndex. destruct (Z.ltb_spec i 0); [discriminate|].
  intros Hl. split; [|exact Hl].
  apply lookup_lt_Some in Hl. lia.
Qed.

Lemma SessionInv_tick (s : Session) : SessionInv s -> SessionInv (tick s).
Proof.
  intros Hinv.
  destruct (decide (step s = StepQuiz)) as [Hq|Hq]; [|rewrite tick_inert; auto].
  pose proof Hinv as [H0 Hs]. rewrite Hq in Hs. destruct Hs as (Hpos & Hlen & Hcur).
  destruct (decide (timeLeft s = 1)) as [H1|H1].
  - rewrite tick_last by auto.
    unfold SessionInv, questions_length in *. cbn. split; [lia|].
    split; [|left; exact Hlen].
    destruct Hcur as [Hcur|[Hcur Hqs]]; [lia|]. rewrite Hqs. cbn. lia.
  - rewrite tick_running by (auto; lia).
    unfold SessionInv. cbn. rewrite Hq. split; [lia|]. split; [lia|]. auto.
Qed.

Lemma SessionInv_dispatch (e : Event) (s s' : Session) :
  SessionInv s -> dispatch e s = Some s' -> SessionInv s'.
Proof.
  intros Hinv Hd. apply dispatch_cases in Hd.
  destruct e.
  - destruct Hd as [Hst ->]. destruct Hinv as [H0 Hs]. rewrite Hst in Hs.
    unfold SessionInv. cbn. rewrite Hst. auto.
  - destruct Hd as [Hst ->]. destruct Hinv as [H0 Hs]. rewrite Hst in Hs.
    unfold SessionInv, handleProfileSubmit.
    destruct (_ || _); cbn; [rewrite Hst|]; auto.
  - destruct Hd as [Hst ->]. destruct Hinv as [H0 Hs]. rewrite Hst in Hs.
    destruct Hs as (Hqs & Han & Hcur).
    destruct r; cbn [generateQuiz];
      try (rewrite timerEffect_inert by (cbn; discriminate);
           unfold SessionInv; cbn; auto).
    rewrite timerEffect_armed by (cbn; lia).
    unfold SessionInv, questions_length. cbn. rewrite Han, Hcur. cbn.
    split; [lia|]. split; [lia|]. split; [reflexivity|].
    destruct generatedQuestions; [right; auto|left; cbn; lia].
  - destruct Hd as (q & Hr & Hidx & ->).
    apply render_quiz in Hr. destruct Hr as (Hst & Hlen & Hq).
    destruct Hinv as [H0 Hs]. rewrite Hst in Hs.
    destruct Hs as (Hpos & Han & Hcur).
    assert (Hlt : currentQuestionIndex s < questions_length s).
    { destruct Hcur as [Hcur|[_ Hqs]]; [exact Hcur|].
      unfold questions_length in Hlen. rewrite Hqs in Hlen. cbn in Hlen. lia. }
    unfold handleAnswer.
    destruct (Z.ltb_spec (currentQuestionIndex s) (questions_length s - 1)).
    + rewrite timerEffect_armed by (cbn; lia).
      unfold SessionInv, questions_length in *. cbn. rewrite Hst.
      rewrite length_app. cbn. split; [lia|]. split; [lia|]. split; [lia|].
      left. lia.
    + rewrite timerEffect_inert by (cbn; discriminate).
      unfold SessionInv, questions_length in *. cbn.
      rewrite length_app. cbn. split; [lia|]. split; [lia|]. right. lia.
  - destruct Hd as [Hst ->]. exact Hinv.
  - destruct Hd as [Hst ->]. unfold SessionInv. cbn. split; [lia|auto].
  - subst s'. apply SessionInv_tick. exact Hinv.
Qed.

Lemma reachable_SessionInv (s : Session) : reachable s -> SessionInv s.
Proof.
  apply reachable_ind'.
  - apply SessionInv_initial.
  - intros s0 e s' _ Hinv Hd. exact (SessionInv_dispatch e s0 s' Hinv Hd).
Qed.

Lemma SessionInv_AnswersInOrder (s : Session) :
  SessionInv s -> AnswersInOrder s.
Proof.
  intros [H0 Hs]. unfold AnswersInOrder, questions_length in *.
  destruct (step s) eqn:Hst.
  - destruct Hs as (-> & -> & ->). cbn. repeat split; try lia; try discriminate.
  - destruct Hs as (-> & -> & ->). cbn. repeat split; try lia; try discriminate.
  - destruct Hs as (Hpos & Han & [Hcur|[Hcur Hqs]]).
    + repeat split; try lia.
    + rewrite Hqs in *. rewrite Hcur in *. cbn. repeat split; try lia.
  - destruct Hs as (Hcur & [Han|[Han Hlast]]); repeat split; try lia; try discriminate.
Qed.

(** The timer effect touches the step only. *)
Lemma timerEffect_fields (s : Session) :
  answers (timerEffect s) = answers s
  /\ questions (timerEffect s) = questions s
  /\ currentQuestionIndex (timerEffect s) = currentQuestionIndex s
  /\ timeLeft (timerEffect s) = timeLeft s
  /\ profile (timerEffect s) = profile s.
Proof.
  unfold timerEffect.
  destruct (_ && _); [auto|]. destruct (_ && _); cbn; auto.
Qed.

(** C8. In every reachable session there are no more answers than
    questions, the current index is within the question set (never above
    its length), and during the quiz the answers recorded are exactly those
    of the questions before the current one; every event (answer, interval
    firing, restart and the others) leads to a session with the same
    properties, and an answer is appended at the position of the current
    question, leaving the earlier answers and the questions as they were. *)
Theorem answers_recorded_in_order (s : Session) :
  reachable s ->
  AnswersInOrder s
  /\ (forall e s', dispatch e s = Some s' -> AnswersInOrder s')
  /\ (forall idx s', dispatch (EvAnswer idx) s = Some s' ->
        Z.of_nat (length (answers s)) = currentQuestionIndex s
        /\ answers s' = answers s ++ [Z.of_nat idx]
        /\ questions s' = questions s)
  /\ AnswersInOrder (tick s)
  /\ AnswersInOrder (restartQuiz s).
Proof.
  intros Hreach. pose proof (reachable_SessionInv s Hreach) as Hinv.
  split; [apply SessionInv_AnswersInOrder, Hinv|].
  split.
  { intros e s' Hd. apply SessionInv_AnswersInOrder.
    exact (SessionInv_dispatch e s s' Hinv Hd). }
  split.
  { intros idx s' Hd. apply dispatch_cases in Hd.
    destruct Hd as (q & Hr & _ & ->).
    apply render_quiz in Hr. destruct Hr as (Hst & _ & _).
    destruct Hinv as [_ Hs]. rewrite Hst in Hs. destruct Hs as (_ & Han & _).
    split; [exact Han|].
    destruct (timerEffect_fields (handleAnswer (Z.of_nat idx) s))
      as (-> & -> & _).
    unfold handleAnswer. destruct (_ <? _); cbn; auto. }
  split.
  { apply SessionInv_AnswersInOrder, SessionInv_tick, Hinv. }
  unfold AnswersInOrder, questions_length. cbn. repeat split; try lia.
Qed.

Lemma answers_recorded_in_order_witness :
  AnswersInOrder initialSession.
Proof.
  apply (answers_recorded_in_order initialSession).
  exists []. reflexivity.
Defined.

(** C9. During the quiz a firing of the interval lowers [timeLeft] by
    exactly 1 and changes nothing else while more than one second remains;
    the firing that reaches 0 also forces the results step, as does the
    effect on any quiz session with 0 seconds, with the answers untouched,
    so that in a reachable session with questions the answers stay fewer
    than the questions; outside the quiz step no interval is armed and
    neither the firing nor the effect changes anything; and the countdown
    from 600 after a generation ends, after 600 firings, in the results step
    with 0 seconds and no answer. *)
Theorem countdown_only_in_quiz (s : Session) :
  (step s = StepQuiz -> 1 < timeLeft s ->
   tick s = setTimeLeft (timeLeft s - 1) s)
  /\ (step s = StepQuiz -> timeLeft s = 1 ->
      tick s = setStep StepResults (setTimeLeft 0 s))
  /\ (step s = StepQuiz -> timeLeft s = 0 ->
      timerEffect s = setStep StepResults s)
  /\ (reachable s -> step s = StepQuiz -> questions s <> [] ->
      answers (tick s) = answers s /\ questions (tick s) = questions s
      /\ (length (answers s) < length (questions s))%nat)
  /\ (step s <> StepQuiz ->
      timerArmed s = false /\ tick s = s /\ timerEffect s = s)
  /\ (forall qs,
      Nat.iter 600 tick (generateQuiz (GenParsed qs) s)
      = setStep StepResults (setTimeLeft 0 (setQuestions qs s))).
Proof.
  split; [apply tick_running|].
  split; [apply tick_last|].
  split; [apply timerEffect_expired|].
  split.
  { intros Hreach Hq Hqs.
    pose proof (reachable_SessionInv s Hreach) as [_ Hs].
    rewrite Hq in Hs. destruct Hs as (Hpos & Han & Hcur).
    assert (Hfields : answers (tick s) = answers s
                      /\ questions (tick s) = questions s).
    { unfold tick. destruct (timerArmed s); [|auto].
      destruct (timerEffect_fields (intervalCallback s)) as (-> & -> & _).
      auto. }
    split; [apply Hfields|]. split; [apply Hfields|].
    destruct Hcur as [Hcur|[_ Hnil]]; [|contradiction].
    unfold questions_length in Hcur. lia. }
  split.
  { intros Hq. split; [|split].
    - unfold timerArmed. rewrite bool_decide_eq_false_2 by exact Hq. reflexivity.
    - apply tick_inert, Hq.
    - apply timerEffect_inert, Hq. }
  intros qs.
  change 600%nat with (S 599).
  rewrite iter_tick_expires; reflexivity.
Qed.

Lemma countdown_only_in_quiz_witness :
  tick (generateQuiz (GenParsed [sampleQuestion]) initialSession)
  = setTimeLeft 599 (generateQuiz (GenParsed [sampleQuestion]) initialSession).
Proof.
  refine (proj1 (countdown_only_in_quiz
                   (generateQuiz (GenParsed [sampleQuestion]) initialSession))
            eq_refl _).
  cbn. lia.
Defined.

(** * Answering *)

Lemma ticksOf_cons (m : nat * nat) (moves : list (nat * nat)) :
  ticksOf (m :: moves) = (fst m + ticksOf moves)%nat.
Proof. reflexivity. Qed.

(** A sitting that answers every remaining question, each click on an
    option its question has, without the clock running out. *)
Lemma run_sitting (moves : list (nat * nat)) :
  forall s : Session,
    step s = StepQuiz ->
    0 <= currentQuestionIndex s ->
    moves <> [] ->
    Forall2 (fun m q => (snd m < length (options q))%nat) moves
      (drop (Z.to_nat (currentQuestionIndex s)) (questions s)) ->
    Z.of_nat (ticksOf moves) < timeLeft s ->
    exists s',
      run (sitting moves) s = Some s'
      /\ step s' = StepResults
      /\ answers s' = answers s ++ map (fun m => Z.of_nat (snd m)) moves
      /\ questions s' = questions s
      /\ timeLeft s' = timeLeft s - Z.of_nat (ticksOf moves).
Proof.
  induction moves as [|[k idx] moves IH]; intros s Hq Hcur Hne Hall Htime;
    [contradiction|].
  rewrite ticksOf_cons in Htime. cbn [fst] in Htime.
  apply Forall2_cons_inv_l in Hall.
  destruct Hall as (q & rest & Hidx & Hrest & Hdrop). cbn [snd] in Hidx.
  assert (Hlook : questions s !! Z.to_nat (currentQuestionIndex s) = Some q).
  { rewrite <- (Nat.add_0_r (Z.to_nat _)), <- lookup_drop, Hdrop. reflexivity. }
  assert (Hlen : length (questions s)
                 = (Z.to_nat (currentQuestionIndex s) + S (length rest))%nat).
  { pose proof (f_equal length Hdrop) as Hl.
    rewrite length_drop in Hl. cbn in Hl.
    apply lookup_lt_Some in Hlook. lia. }
  unfold sitting. cbn [flat_map fst snd].
  fold (sitting moves).
  rewrite <- app_assoc, run_app, run_ticks by (auto; lia).
  cbn [mbind option_bind app run].
  set (s1 := setTimeLeft (timeLeft s - Z.of_nat k) s).
  assert (Hrender : render s1 = ViewQuiz q).
  { unfold render, questions_length. cbn [s1 step setTimeLeft questions
      currentQuestionIndex]. rewrite Hq.
    destruct (Z.ltb_spec 0 (Z.of_nat (length (questions s)))); [|lia].
    unfold jsIndex. destruct (Z.ltb_spec (currentQuestionIndex s) 0); [lia|].
    rewrite Hlook. reflexivity. }
  unfold dispatch, handler. rewrite Hrender.
  destruct (Nat.ltb_spec idx (length (options q))); [|lia].
  cbn [fmap option_fmap option_map].
  unfold handleAnswer, questions_length.
  cbn [s1 setTimeLeft questions currentQuestionIndex answers].
  destruct moves as [|m moves'].
  - apply Forall2_nil_inv_l in Hrest. subst rest. cbn [length] in Hlen.
    destruct (Z.ltb_spec (currentQuestionIndex s)
                (Z.of_nat (length (questions s)) - 1)); [lia|].
    rewrite timerEffect_inert by (cbn; discriminate).
    eexists. split; [reflexivity|]. cbn.
    repeat split. f_equal. lia.
  - pose proof (Forall2_length _ _ _ Hrest) as Hlr. cbn [length] in Hlr.
    destruct (Z.ltb_spec (currentQuestionIndex s)
                (Z.of_nat (length (questions s)) - 1)); [|lia].
    rewrite timerEffect_armed by (cbn; lia).
    match goal with |- context [run _ ?s2] => set (s2' := s2) end.
    destruct (IH s2') as (s' & Hrun & Hst & Han & Hqs & Htl).
    + cbn. exact Hq.
    + cbn. lia.
    + discriminate.
    + unfold s2', s1.
      cbn [setCurrentQuestionIndex setAnswers setTimeLeft currentQuestionIndex
             questions].
      replace (Z.to_nat (currentQuestionIndex s + 1))
        with (S (Z.to_nat (currentQuestionIndex s))) by lia.
      rewrite <- Nat.add_1_r, <- drop_drop, Hdrop. exact Hrest.
    + unfold s2', s1.
      cbn [setCurrentQuestionIndex setAnswers setTimeLeft timeLeft]. lia.
    + exists s'. split; [exact Hrun|]. split; [exact Hst|].
      split; [|split].
      * rewrite Han. unfold s2', s1.
        cbn [setCurrentQuestionIndex setAnswers setTimeLeft answers map snd].
        rewrite <- app_assoc. reflexivity.
      * rewrite Hqs. reflexivity.
      * rewrite Htl. unfold s2', s1.
        cbn [setCurrentQuestionIndex setAnswers setTimeLeft timeLeft].
        rewrite (ticksOf_cons (k, idx)). cbn [fst]. lia.
Qed.

(** C6. During the quiz, answering a question before the last one appends
    the chosen option index to the answers, raises the current index by
    exactly 1 and stays in the quiz step; answering the last question
    appends too and moves to the results step.  Hence ten answers in
    sequence to a fresh set of ten questions, with any number of interval
    firings before each that leave time on the clock, end in the results
    step with exactly those ten answers. *)
Theorem handleAnswer_advances_then_completes (s : Session) :
  step s = StepQuiz ->
  (forall o, currentQuestionIndex s < questions_length s - 1 ->
     handleAnswer o s
     = setCurrentQuestionIndex (currentQuestionIndex s + 1)
         (setAnswers (answers s ++ [o]) s)
     /\ step (handleAnswer o s) = StepQuiz
     /\ answers (handleAnswer o s) = answers s ++ [o]
     /\ currentQuestionIndex (handleAnswer o s) = currentQuestionIndex s + 1)
  /\ (forall o, currentQuestionIndex s = questions_length s - 1 ->
        handleAnswer o s = setStep StepResults (setAnswers (answers s ++ [o]) s)
        /\ step (handleAnswer o s) = StepResults
        /\ answers (handleAnswer o s) = answers s ++ [o])
  /\ (forall moves : list (nat * nat),
        currentQuestionIndex s = 0 -> answers s = [] ->
        length (questions s) = 10%nat ->
        Forall2 (fun m q => (snd m < length (options q))%nat) moves (questions s) ->
        Z.of_nat (ticksOf moves) < timeLeft s ->
        exists s',
          run (sitting moves) s = Some s'
          /\ step s' = StepResults
          /\ answers s' = map (fun m => Z.of_nat (snd m)) moves
          /\ length (answers s') = 10%nat
          /\ timeLeft s' = timeLeft s - Z.of_nat (ticksOf moves)).
Proof.
  intros Hq. split; [|split].
  - intros o Hlt. unfold handleAnswer.
    destruct (Z.ltb_spec (currentQuestionIndex s) (questions_length s - 1));
      [|lia].
    cbn. auto.
  - intros o Hlast. unfold handleAnswer.
    destruct (Z.ltb_spec (currentQuestionIndex s) (questions_length s - 1));
      [lia|].
    cbn. auto.
  - intros moves Hcur Han Hten Hall Htime.
    pose proof (Forall2_length _ _ _ Hall) as Hlen.
    destruct (run_sitting moves s) as (s' & Hrun & Hst & Hans & _ & Htl).
    + exact Hq.
    + lia.
    + intros ->. cbn in Hlen. lia.
    + rewrite Hcur. cbn. exact Hall.
    + exact Htime.
    + exists s'. rewrite Han in Hans. cbn in Hans.
      repeat split; auto.
      rewrite Hans, length_map. lia.
Qed.

Lemma handleAnswer_advances_then_completes_witness :
  exists s',
    run (sitting (repeat (3%nat, 1%nat) 10))
      (generateQuiz (GenParsed (repeat sampleQuestion 10)) initialSession)
    = Some s'
    /\ step s' = StepResults
    /\ answers s' = repeat 1 10
    /\ length (answers s') = 10%nat
    /\ timeLeft s' = 570.
Proof.
  apply (handleAnswer_advances_then_completes
           (generateQuiz (GenParsed (repeat sampleQuestion 10)) initialSession)
           eq_refl);
    [reflexivity|reflexivity|reflexivity| |vm_compute; reflexivity].
  repeat constructor.
Defined.

(** * Generation *)

(** C2 (amended). In the loading step, any response whose text parses is
    installed as the question set, whatever the number and shape of its
    questions, with [timeLeft] reset to 600 and the quiz step entered; the
    current index is not written, and is 0 already in every reachable
    loading session, as the answers are empty.  A rejected call, an empty
    text or an unparsable text returns to the profile step with the error
    message and no other change, so that a reachable session holds no
    question and no answer afterwards. *)
Theorem generateQuiz_installs_any_parsed_set (s : Session) :
  step s = StepLoading ->
  (forall qs,
     dispatch (EvGenerated (GenParsed qs)) s
     = Some (setStep StepQuiz (setTimeLeft 600 (setQuestions qs s))))
  /\ (forall r, (forall qs, r <> GenParsed qs) ->
      dispatch (EvGenerated r) s
      = Some (setStep StepProfile
                (setError
                   (Some "Failed to generate quiz. Please try again or check your connection.")
                   s)))
  /\ (reachable s ->
      currentQuestionIndex s = 0 /\ answers s = [] /\ questions s = []).
Proof.
  intros Hst.
  assert (Hd : forall r, dispatch (EvGenerated r) s
                         = Some (timerEffect (generateQuiz r s))).
  { intros r. unfold dispatch, handler, render. rewrite Hst. reflexivity. }
  split; [|split].
  - intros qs. rewrite Hd. cbn [generateQuiz].
    rewrite timerEffect_armed by (cbn; lia). reflexivity.
  - intros r Hr. rewrite Hd.
    destruct r; try (rewrite timerEffect_inert by (cbn; discriminate);
                     reflexivity).
    exfalso. exact (Hr _ eq_refl).
  - intros Hreach. pose proof (reachable_SessionInv s Hreach) as [_ Hs].
    rewrite Hst in Hs. tauto.
Qed.

Lemma generateQuiz_installs_any_parsed_set_witness :
  dispatch (EvGenerated (GenParsed [shortQuestion]))
    (handleProfileSubmit
       (setProfile {| name := "A B"; rank := "Officer"; vessel := "MV X" |}
          initialSession))
  = Some (setStep StepQuiz
            (setTimeLeft 600
               (setQuestions [shortQuestion]
                  (handleProfileSubmit
                     (setProfile
                        {| name := "A B"; rank := "Officer"; vessel := "MV X" |}
                        initialSession))))).
Proof.
  apply (generateQuiz_installs_any_parsed_set
           (handleProfileSubmit
              (setProfile {| name := "A B"; rank := "Officer"; vessel := "MV X" |}
                 initialSession))).
  reflexivity.
Defined.

(** C2, as stated, fails: a response of one question with two options and
    a correct index of 7 is not a valid set of ten, and it starts the
    quiz. *)
Lemma generateQuiz_accepts_malformed_set :
  ~ validQuestionSet [shortQuestion]
  /\ ~ validQuestion shortQuestion
  /\ exists s,
       run (fillProfile ++ [EvGenerated (GenParsed [shortQuestion])])
         initialSession = Some s
       /\ step s = StepQuiz
       /\ questions s = [shortQuestion].
Proof.
  split; [|split].
  - intros [Hlen _]. discriminate Hlen.
  - intros [Hopts _]. discriminate Hopts.
  - eexists. split; [vm_compute; reflexivity|]. split; reflexivity.
Qed.

(** * The report *)

Section ReportFacts.

Variable splitTextToSize : Font -> string -> Z -> list string.
Variable date : string.

Lemma textsOf_app (d1 d2 : list DocCall) :
  textsOf (d1 ++ d2) = textsOf d1 ++ textsOf d2.
Proof. apply omap_app. Qed.

Lemma currentFont_app (d1 d2 : list DocCall) :
  currentFont (d1 ++ d2) = fold_left applyFont d2 (currentFont d1).
Proof. apply fold_left_app. Qed.

(** Whatever was drawn before, a block measures its question in bold 12
    and its explanation in normal 10, the fonts it has just set. *)
Ltac settle_fonts :=
  rewrite ?currentFont_app;
  cbn [fold_left applyFont fontName fontStyle fontSize].

(** The calls of one review block do not depend on the document so far. *)
Lemma reviewQuestion_appends (ans : list Z) (q : QuizQuestion) (i : nat)
    (doc : list DocCall) (yPos : Z) :
  reviewQuestion splitTextToSize ans q i (doc, yPos)
  = (doc ++ fst (reviewQuestion splitTextToSize ans q i ([], yPos)),
     snd (reviewQuestion splitTextToSize ans q i ([], yPos))).
Proof.
  unfold reviewQuestion.
  destruct (250 <? yPos), (isHit ans q i); cbn [negb fst snd];
    settle_fonts; rewrite <- ?app_assoc; reflexivity.
Qed.

Lemma forEach_review_appends (ans : list Z) (qs : list QuizQuestion) :
  forall (i : nat) (doc : list DocCall) (yPos : Z),
    fst (forEach (reviewQuestion splitTextToSize ans) qs i (doc, yPos))
    = doc ++ fst (forEach (reviewQuestion splitTextToSize ans) qs i ([], yPos)).
Proof.
  induction qs as [|q qs IH]; intros i doc yPos.
  - cbn. rewrite app_nil_r. reflexivity.
  - cbn [forEach].
    rewrite reviewQuestion_appends.
    rewrite IH.
    rewrite (reviewQuestion_appends ans q i [] yPos).
    rewrite (IH (S i) ([] ++ _)).
    rewrite app_nil_l, app_assoc. reflexivity.
Qed.

(** A review block paints what the specification lists, with the user's
    answer only under an INCORRECT verdict. *)
Lemma reviewQuestion_texts (ans : list Z) (q : QuizQuestion) (i : nat)
    (yPos : Z) :
  textsOf (fst (reviewQuestion splitTextToSize ans q i ([], yPos)))
  = reviewTexts splitTextToSize ans i q.
Proof.
  unfold reviewQuestion, reviewTexts.
  destruct (250 <? yPos), (isHit ans q i); cbn [negb fst snd];
    settle_fonts; reflexivity.
Qed.

Lemma forEach_review_texts (ans : list Z) (qs : list QuizQuestion) :
  forall (i : nat) (yPos : Z),
    textsOf (fst (forEach (reviewQuestion splitTextToSize ans) qs i ([], yPos)))
    = concat (imap (fun j => reviewTexts splitTextToSize ans (i + j)) qs).
Proof.
  induction qs as [|q qs IH]; intros i yPos; [reflexivity|].
  cbn [forEach]. rewrite reviewQuestion_appends, forEach_review_appends.
  rewrite app_nil_l, textsOf_app, reviewQuestion_texts, IH.
  rewrite imap_cons. cbn [concat]. rewrite Nat.add_0_r.
  f_equal. f_equal. apply imap_ext. intros j x _.
  replace (S i + j)%nat with (i + S j)%nat by lia. reflexivity.
Qed.

Lemma reportFooter_texts (pageCount : nat) :
  textsOf (reportFooter pageCount)
  = repeat ["CLdN Competency Assurance System"] pageCount.
Proof.
  unfold reportFooter. generalize 1%nat.
  induction pageCount as [|n IH]; intros k; [reflexivity|].
  cbn [seq flat_map]. rewrite textsOf_app, IH. reflexivity.
Qed.

(** The report is the header, the review blocks and the footer. *)
Lemma generatePDF_parts (s : Session) :
  exists (review : list DocCall) (pageCount : nat),
    generatePDF splitTextToSize date s
    = reportHeader date s ++ review ++ reportFooter pageCount
      ++ [Save (reportFileName s)]
    /\ review
       = fst (forEach (reviewQuestion splitTextToSize (answers s))
                (questions s) 0%nat ([], 110))
    /\ (1 <= pageCount)%nat.
Proof.
  unfold generatePDF.
  destruct (forEach _ _ _ (reportHeader date s, 110)) as [doc yEnd] eqn:Hfe.
  pose proof (forEach_review_appends (answers s) (questions s) 0%nat
                (reportHeader date s) 110) as Happ.
  rewrite Hfe in Happ. cbn [fst] in Happ.
  eexists _, (getNumberOfPages doc).
  split; [|split; [reflexivity|]].
  - rewrite Happ, <- app_assoc. reflexivity.
  - unfold getNumberOfPages. lia.
Qed.

End ReportFacts.

(** C3 (amended). Between the header and the footer the report paints one
    review block per question, in the original order.  Each block has the
    question text (numbered, wrapped), the verdict, the correct option text
    and the explanation (wrapped); the line of the user's answer is painted
    only under an INCORRECT verdict: the selected option text, or the
    marker "No Answer (Time expired)" when no answer exists at that index,
    in which case the verdict is INCORRECT.  A correctly answered question
    has no line for the user's answer. *)
Theorem review_blocks_per_question (splitTextToSize : Font -> string -> Z -> list string)
    (date : string) (s : Session) :
  (exists pageCount : nat,
     textsOf (generatePDF splitTextToSize date s)
     = textsOf (reportHeader date s)
       ++ concat (imap (reviewTexts splitTextToSize (answers s)) (questions s))
       ++ repeat ["CLdN Competency Assurance System"] pageCount)
  /\ (forall (i : nat) (q : QuizQuestion),
        questions s !! i = Some q ->
        let qText :=
          splitTextToSize questionFont
            ("Q" +:+ showInt (Z.of_nat i + 1) +:+ ": " +:+ question q) 180 in
        let correct :=
          "Correct Answer: " +:+
          showOptional (jsIndex (options q) (correctAnswerIndex q)) in
        let note := splitTextToSize noteFont ("Note: " +:+ explanation q) 170 in
        match answers s !! i with
        | None =>
            reviewTexts splitTextToSize (answers s) i q
            = [qText; ["Result: INCORRECT"];
               ["Your Answer: No Answer (Time expired)"]; [correct]; note]
        | Some a =>
            if a =? correctAnswerIndex q then
              reviewTexts splitTextToSize (answers s) i q
              = [qText; ["Result: CORRECT"]; [correct]; note]
            else
              reviewTexts splitTextToSize (answers s) i q
              = [qText; ["Result: INCORRECT"];
                 ["Your Answer: " +:+ showOptional (jsIndex (options q) a)];
                 [correct]; note]
        end).
Proof.
  split.
  - destruct (generatePDF_parts splitTextToSize date s)
      as (review & pageCount & -> & -> & _).
    exists pageCount.
    rewrite !textsOf_app, forEach_review_texts, reportFooter_texts.
    cbn [textsOf omap paints]. rewrite app_nil_r. reflexivity.
  - intros i q _ qText correct note.
    unfold reviewTexts, isHit.
    destruct (answers s !! i) as [a|]; [|reflexivity].
    destruct (a =? correctAnswerIndex q); reflexivity.
Qed.

Lemma review_blocks_per_question_witness :
  reviewTexts noWrap [1] 0 sampleQuestion
  = [["Q1: Which vessel gives way?"]; ["Result: CORRECT"];
     ["Correct Answer: Vessel B"]; ["Note: Rule 15."]].
Proof.
  exact (proj2 (review_blocks_per_question noWrap "2026-01-01"
                  (setAnswers [1] (setQuestions [sampleQuestion] initialSession)))
           0%nat sampleQuestion eq_refl).
Defined.

(** C3, as stated, fails: the review block of a correctly answered
    question paints four texts and none of them is the user's selected
    option. *)
Lemma review_block_omits_user_answer_when_correct :
  exists s,
    run (fillProfile ++ [EvGenerated (GenParsed [sampleQuestion]); EvAnswer 1%nat])
      initialSession = Some s
    /\ textsOf (generatePDF noWrap "2026-01-01" s)
       = [["CLdN"]; ["COLREGs Competency Report"]; ["Date:"]; ["2026-01-01"];
          ["Name:"]; ["A B"]; ["Rank:"]; ["Officer"]; ["Vessel:"]; ["MV X"];
          ["Final Score: 1 / 1 (100%)"]; ["RESULT: FAIL"];
          ["Detailed Assessment:"];
          ["Q1: Which vessel gives way?"]; ["Result: CORRECT"];
          ["Correct Answer: Vessel B"]; ["Note: Rule 15."];
          ["CLdN Competency Assurance System"]]
    /\ ~ In ["Your Answer: Vessel B"] (textsOf (generatePDF noWrap "2026-01-01" s)).
Proof.
  eexists. split; [vm_compute; reflexivity|].
  split; [vm_compute; reflexivity|].
  vm_compute. intros H. not_listed H.
Qed.

(** * The verdict *)

Section VerdictFacts.

Variable splitTextToSize : Font -> string -> Z -> list string.
Variable date : string.

(** Review blocks and footer paint nothing in the score box column. *)
Lemma reviewQuestion_column (ans : list Z) (q : QuizQuestion) (i : nat)
    (yPos : Z) (t : string) (y : Z) (a : option string) :
  ~ In (Text t 130 y a)
      (fst (reviewQuestion splitTextToSize ans q i ([], yPos))).
Proof.
  unfold reviewQuestion.
  destruct (250 <? yPos), (isHit ans q i); cbn [negb fst snd app In];
    intros H; not_listed H.
Qed.

Lemma forEach_review_column (ans : list Z) (qs : list QuizQuestion)
    (t : string) (y : Z) (a : option string) :
  forall (i : nat) (yPos : Z),
    ~ In (Text t 130 y a)
        (fst (forEach (reviewQuestion splitTextToSize ans) qs i ([], yPos))).
Proof.
  induction qs as [|q qs IH]; intros i yPos; [intros []|].
  cbn [forEach]. rewrite reviewQuestion_appends, forEach_review_appends.
  rewrite app_nil_l, in_app_iff. intros [H|H].
  - exact (reviewQuestion_column _ _ _ _ _ _ _ H).
  - exact (IH _ _ H).
Qed.

Lemma reportFooter_column (pageCount : nat) (t : string) (y : Z)
    (a : option string) :
  ~ In (Text t 130 y a) (reportFooter pageCount).
Proof.
  unfold reportFooter. rewrite in_flat_map. intros (k & _ & H).
  cbn [In] in H. not_listed H.
Qed.

Lemma reportHeader_verdict (s : Session) (t : string) :
  In (Text t 130 75 None) (reportHeader date s)
  <-> t = (if passMark (calculateScore s) then "RESULT: PASS"
           else "RESULT: FAIL").
Proof.
  unfold reportHeader. cbn [In]. split.
  - intros H.
    repeat (destruct H as [H|H]; [try discriminate H|]); [|contradiction].
    injection H as <-. reflexivity.
  - intros ->. do 35 right. left. reflexivity.
Qed.

Lemma generatePDF_verdict (s : Session) (t : string) :
  In (Text t 130 75 None) (generatePDF splitTextToSize date s)
  <-> t = (if passMark (calculateScore s) then "RESULT: PASS"
           else "RESULT: FAIL").
Proof.
  destruct (generatePDF_parts splitTextToSize date s)
    as (review & pageCount & -> & -> & _).
  rewrite !in_app_iff, reportHeader_verdict. split; [|auto].
  intros [H|[H|[H|H]]]; [exact H| | |].
  - exfalso. exact (forEach_review_column _ _ _ _ _ _ _ H).
  - exfalso. exact (reportFooter_column _ _ _ _ H).
  - destruct H as [H|[]]. discriminate H.
Qed.

End VerdictFacts.

Lemma passMark_spec (score : nat) : passMark score = true <-> (7 <= score)%nat.
Proof. unfold passMark. apply Nat.leb_le. Qed.

(** C5. The verdict is a pass exactly when the score is at least 7,
    whatever the number of questions, both in the results view and on the
    PASS/FAIL line of the report; six correct answers of ten fail and seven
    of ten pass. *)
Theorem pass_mark_is_seven (splitTextToSize : Font -> string -> Z -> list string)
    (date : string) (s : Session) :
  (rv_passed (resultsView s) = true <-> (7 <= calculateScore s)%nat)
  /\ (rv_verdict (resultsView s) = "COMPETENT" <-> (7 <= calculateScore s)%nat)
  /\ (In (Text "RESULT: PASS" 130 75 None) (generatePDF splitTextToSize date s)
      <-> (7 <= calculateScore s)%nat)
  /\ (In (Text "RESULT: FAIL" 130 75 None) (generatePDF splitTextToSize date s)
      <-> (calculateScore s < 7)%nat)
  /\ (let six := setAnswers (repeat 1 6 ++ repeat 0 4)
                   (setQuestions (repeat sampleQuestion 10) s) in
      calculateScore six = 6%nat /\ rv_passed (resultsView six) = false
      /\ In (Text "RESULT: FAIL" 130 75 None) (generatePDF splitTextToSize date six))
  /\ (let seven := setAnswers (repeat 1 7 ++ repeat 0 3)
                     (setQuestions (repeat sampleQuestion 10) s) in
      calculateScore seven = 7%nat /\ rv_passed (resultsView seven) = true
      /\ In (Text "RESULT: PASS" 130 75 None) (generatePDF splitTextToSize date seven)).
Proof.
  split; [apply passMark_spec|].
  split.
  { cbn [resultsView rv_verdict]. rewrite <- passMark_spec.
    destruct (passMark (calculateScore s)); split; intros H;
      try reflexivity; discriminate H. }
  split.
  { rewrite generatePDF_verdict, <- passMark_spec.
    destruct (passMark (calculateScore s)); split; intros H;
      try reflexivity; discriminate H. }
  split.
  { rewrite generatePDF_verdict, Nat.lt_nge, <- passMark_spec.
    destruct (passMark (calculateScore s)); split; intros H;
      try reflexivity; try discriminate H.
    - exfalso. apply H. reflexivity.
    - intros H'. discriminate H'. }
  split.
  - cbn zeta. split; [reflexivity|]. split; [reflexivity|].
    apply generatePDF_verdict. reflexivity.
  - cbn zeta. split; [reflexivity|]. split; [reflexivity|].
    apply generatePDF_verdict. reflexivity.
Qed.

(** * The percentage of an empty question set *)

Lemma generatePDF_score_line (splitTextToSize : Font -> string -> Z -> list string)
    (date : string) (s : Session) :
  In (Text ("Final Score: " +:+ showInt (Z.of_nat (calculateScore s)) +:+ " / "
            +:+ showInt (Z.of_nat (length (questions s))) +:+ " ("
            +:+ showRounded (percentage (calculateScore s) (length (questions s)))
            +:+ "%)") 130 65 None)
    (generatePDF splitTextToSize date s).
Proof.
  destruct (generatePDF_parts splitTextToSize date s)
    as (review & pageCount & -> & _ & _).
  apply in_app_iff. left. unfold reportHeader. cbn [In].
  do 32 right. left. reflexivity.
Qed.

(** C10. The percentage of the score box is
    [Math.round((score/total)*100)] with no case for a total of 0: for an
    empty question set it is 0/0, not a number, and the score line reads
    "NaN%".  Such a report can be asked for: the generation handler installs
    an empty parsed array as it does any other, the page then offers no
    answer, the countdown ends the quiz after 600 firings, and the results
    view offers the download. *)
Theorem empty_question_set_percentage_is_NaN
    (splitTextToSize : Font -> string -> Z -> list string) (date : string) :
  percentage 0 0 = RoundedNaN
  /\ (forall s : Session,
        questions s = [] ->
        percentage (calculateScore s) (length (questions s)) = RoundedNaN
        /\ In (Text "Final Score: 0 / 0 (NaN%)" 130 65 None)
             (generatePDF splitTextToSize date s))
  /\ (exists s : Session,
        run (fillProfile ++ EvGenerated (GenParsed []) :: repeat EvTick 600)
          initialSession = Some s
        /\ step s = StepResults
        /\ questions s = []
        /\ dispatch EvDownload s = Some s).
Proof.
  split; [vm_compute; reflexivity|].
  split.
  - intros s Hqs.
    pose proof (generatePDF_score_line splitTextToSize date s) as Hline.
    unfold calculateScore in *. rewrite Hqs in *. cbn [forEach length] in *.
    split; [vm_compute; reflexivity|].
    exact Hline.
  - eexists. split; [vm_compute; reflexivity|].
    split; [reflexivity|]. split; reflexivity.
Qed.

Lemma empty_question_set_percentage_is_NaN_witness :
  percentage
    (calculateScore (setStep StepResults (generateQuiz (GenParsed []) initialSession)))
    (length (questions (setStep StepResults (generateQuiz (GenParsed []) initialSession))))
  = RoundedNaN
  /\ In (Text "Final Score: 0 / 0 (NaN%)" 130 65 None)
       (generatePDF noWrap "2026-01-01"
          (setStep StepResults (generateQuiz (GenParsed []) initialSession))).
Proof.
  apply (proj1 (proj2 (empty_question_set_percentage_is_NaN noWrap "2026-01-01"))).
  reflexivity.
Defined.

(** * Further facts about the session state machine *)

Lemma timerEffect_cases (s : Session) :
  timerEffect s = s
  \/ (step s = StepQuiz /\ timeLeft s = 0 /\ timerEffect s = setStep StepResults s).
Proof.
  destruct (decide (step s = StepQuiz)) as [Hq|Hq];
    [|left; apply timerEffect_inert, Hq].
  destruct (Z.eq_dec (timeLeft s) 0) as [H0|H0].
  - right. split; [exact Hq|]. split; [exact H0|].
    apply timerEffect_expired; assumption.
  - left. unfold timerEffect. rewrite bool_decide_eq_true_2 by exact Hq.
    cbn [andb]. destruct (0 <? timeLeft s); [reflexivity|].
    destruct (Z.eqb_spec (timeLeft s) 0); [contradiction|reflexivity].
Qed.

Lemma tick_cases (s : Session) :
  tick s = s
  \/ (step s = StepQuiz /\ 1 < timeLeft s
      /\ tick s = setTimeLeft (timeLeft s - 1) s)
  \/ (step s = StepQuiz /\ timeLeft s = 1
      /\ tick s = setStep StepResults (setTimeLeft 0 s)).
Proof.
  destruct (decide (step s = StepQuiz)) as [Hq|Hq];
    [|left; apply tick_inert, Hq].
  destruct (Z_le_gt_dec (timeLeft s) 0) as [H0|H0];
    [left; apply tick_expired, H0|].
  destruct (Z.eq_dec (timeLeft s) 1) as [H1|H1].
  - right. right. auto using tick_last.
  - right. left. split; [exact Hq|]. split; [lia|]. apply tick_running; [exact Hq|lia].
Qed.

(** The cells an event leaves alone. *)
Lemma dispatch_answer_cells (idx : nat) (s s' : Session) :
  dispatch (EvAnswer idx) s = Some s' ->
  exists q,
    render s = ViewQuiz q /\ (idx < length (options q))%nat
    /\ answers s' = answers s ++ [Z.of_nat idx]
    /\ questions s' = questions s /\ profile s' = profile s
    /\ error s' = error s /\ timeLeft s' = timeLeft s
    /\ (step s' = StepQuiz \/ step s' = StepResults).
Proof.
  intros Hd. apply dispatch_cases in Hd. destruct Hd as (q & Hr & Hidx & ->).
  exists q. split; [exact Hr|]. split; [exact Hidx|].
  pose proof (render_quiz s q Hr) as (Hst & _ & _).
  destruct (timerEffect_cases (handleAnswer (Z.of_nat idx) s))
    as [->|(_ & _ & ->)];
    unfold handleAnswer; destruct (_ <? _); cbn; rewrite ?Hst; auto 10.
Qed.

Lemma dispatch_generated_cells (r : GenOutcome) (s s' : Session) :
  dispatch (EvGenerated r) s = Some s' ->
  step s = StepLoading
  /\ match r with
     | GenParsed qs =>
         s' = setStep StepQuiz (setTimeLeft 600 (setQuestions qs s))
     | _ =>
         s' = setStep StepProfile
                (setError
                   (Some "Failed to generate quiz. Please try again or check your connection.")
                   s)
     end.
Proof.
  intros Hd. apply dispatch_cases in Hd. destruct Hd as [Hst ->].
  split; [exact Hst|].
  destruct r; cbn [generateQuiz];
    try (apply timerEffect_inert; cbn; discriminate).
  apply timerEffect_armed. cbn. lia.
Qed.

Lemma handleProfileSubmit_cases (s : Session) :
  (handleProfileSubmit s = setStep StepLoading (setError None s)
   /\ name (profile s) <> "" /\ rank (profile s) <> "" /\ vessel (profile s) <> "")
  \/ handleProfileSubmit s = setError (Some "Please fill in all fields.") s.
Proof.
  unfold handleProfileSubmit.
  destruct (falsy (name (profile s))) eqn:Hn; [right; reflexivity|].
  destruct (falsy (rank (profile s))) eqn:Hr; [right; reflexivity|].
  destruct (falsy (vessel (profile s))) eqn:Hv; [right; reflexivity|].
  left. apply falsy_false in Hn, Hr, Hv. auto.
Qed.

Lemma SessionShape_initial : SessionShape initialSession.
Proof.
  split; [cbn; lia|]. split; [intros H; contradiction H; reflexivity|].
  intros i a H. destruct i; discriminate H.
Qed.

Lemma SessionShape_dispatch (e : Event) (s s' : Session) :
  SessionInv s -> SessionShape s -> dispatch e s = Some s' -> SessionShape s'.
Proof.
  intros Hinv (Htl & Hout & Hans) Hd.
  destruct e.
  - apply dispatch_cases in Hd. destruct Hd as [Hst ->].
    split; [exact Htl|]. split; [|exact Hans].
    cbn. intros H. contradiction.
  - apply dispatch_cases in Hd. destruct Hd as [Hst ->].
    destruct (handleProfileSubmit_cases s) as [(-> & Hn & Hr & Hv)| ->].
    + split; [exact Htl|]. split; [|exact Hans]. cbn. auto.
    + split; [exact Htl|]. split; [|exact Hans]. cbn. intros H. contradiction.
  - apply dispatch_generated_cells in Hd. destruct Hd as [Hst Hs'].
    destruct Hinv as [_ Hs]. rewrite Hst in Hs. destruct Hs as (_ & Han & _).
    assert (Hloading : step s <> StepProfile) by (rewrite Hst; discriminate).
    destruct r; subst s';
      try (split; [exact Htl|]; split; [|exact Hans];
           cbn; intros H; contradiction H; reflexivity).
    split; [cbn; lia|]. split; [cbn; intros _; exact (Hout Hloading)|].
    intros i a. cbn. rewrite Han. destruct i; discriminate.
  - apply dispatch_answer_cells in Hd.
    destruct Hd as (q & Hr & Hidx & Ha & Hq & Hp & He & Ht & Hstep).
    pose proof (render_quiz s q Hr) as (Hst & _ & Hjs).
    destruct Hinv as [_ Hs]. rewrite Hst in Hs. destruct Hs as (_ & Hlen & _).
    split; [lia|]. split.
    + intros _. rewrite He, Hp. apply Hout. rewrite Hst. discriminate.
    + intros i a. rewrite Ha, Hq. intros Hi.
      apply lookup_app_Some in Hi. destruct Hi as [Hi|[Hge Hi]]; [exact (Hans i a Hi)|].
      apply list_lookup_singleton_Some in Hi. destruct Hi as [Hi <-].
      apply jsIndex_Some in Hjs. destruct Hjs as [_ Hjs].
      assert (i = Z.to_nat (currentQuestionIndex s)) as -> by lia.
      destruct (lookup_lt_is_Some_2 (options q) idx Hidx) as [t Ht'].
      exists q, t. split; [exact Hjs|].
      unfold jsIndex. destruct (Z.ltb_spec (Z.of_nat idx) 0); [lia|].
      rewrite Nat2Z.id. exact Ht'.
  - apply dispatch_cases in Hd. destruct Hd as [_ ->]. exact (conj Htl (conj Hout Hans)).
  - apply dispatch_cases in Hd. destruct Hd as [_ ->].
    split; [cbn; lia|]. split; [cbn; intros H; contradiction H; reflexivity|].
    intros i a H. destruct i; discriminate H.
  - apply dispatch_cases in Hd. subst s'.
    destruct (tick_cases s) as [->|[(Hq & H1 & ->)|(Hq & H1 & ->)]].
    + exact (conj Htl (conj Hout Hans)).
    + split; [cbn; lia|]. split; [|exact Hans]. cbn. exact Hout.
    + split; [cbn; lia|]. split; [|exact Hans]. cbn. intros _. apply Hout.
      rewrite Hq. discriminate.
Qed.

Lemma reachable_SessionShape (s : Session) : reachable s -> SessionShape s.
Proof.
  intros Hreach.
  enough (SessionInv s /\ SessionShape s) by tauto.
  revert s Hreach. apply reachable_ind'.
  - split; [apply SessionInv_initial|apply SessionShape_initial].
  - intros s e s' _ [Hinv Hshape] Hd. split.
    + exact (SessionInv_dispatch e s s' Hinv Hd).
    + exact (SessionShape_dispatch e s s' Hinv Hshape Hd).
Qed.



(** X2. Every event moves the step along an arrow of the diagram
    profile -> loading -> quiz -> results -> profile (with loading -> profile
    on failure) or leaves it where it is; no other jump exists. *)
Theorem steps_follow_diagram (e : Event) (s s' : Session) :
  dispatch e s = Some s' -> stepArrow (step s) (step s') = true.
Proof.
  intros Hd. destruct e.
  - apply dispatch_cases in Hd. destruct Hd as [Hst ->]. cbn. rewrite Hst. reflexivity.
  - apply dispatch_cases in Hd. destruct Hd as [Hst ->].
    destruct (handleProfileSubmit_cases s) as [(-> & _)| ->];
      cbn; rewrite ?Hst; reflexivity.
  - apply dispatch_generated_cells in Hd. destruct Hd as [Hst Hs'].
    rewrite Hst. destruct r; subst s'; reflexivity.
  - apply dispatch_answer_cells in Hd.
    destruct Hd as (q & Hr & _ & _ & _ & _ & _ & _ & Hstep).
    apply render_quiz in Hr. destruct Hr as (-> & _).
    destruct Hstep as [-> | ->]; reflexivity.
  - apply dispatch_cases in Hd. destruct Hd as [Hst ->]. rewrite Hst. reflexivity.
  - apply dispatch_cases in Hd. destruct Hd as [Hst ->]. rewrite Hst. reflexivity.
  - apply dispatch_cases in Hd. subst s'.
    destruct (tick_cases s) as [->|[(Hq & _ & ->)|(Hq & _ & ->)]];
      cbn; rewrite ?Hq; try reflexivity.
    destruct (step s); reflexivity.
Qed.

Lemma steps_follow_diagram_witness :
  stepArrow (step initialSession) (step (tick initialSession)) = true.
Proof.
  apply (steps_follow_diagram EvTick initialSession (tick initialSession)).
  reflexivity.
Defined.

(** X3. The profile changes only by typing into the form of the profile
    step: every other event, and every event in another step, leaves the
    three fields as they are. *)
Theorem profile_changes_only_by_input (e : Event) (s s' : Session) :
  dispatch e s = Some s' ->
  profile s' = profile s
  \/ (step s = StepProfile
      /\ exists f v, e = EvInput f v /\ profile s' = withField f v (profile s)).
Proof.
  intros Hd. destruct e.
  - apply dispatch_cases in Hd. destruct Hd as [Hst ->]. right. eauto.
  - apply dispatch_cases in Hd. destruct Hd as [Hst ->]. left.
    destruct (handleProfileSubmit_cases s) as [(-> & _)| ->]; reflexivity.
  - apply dispatch_generated_cells in Hd. destruct Hd as [_ Hs'].
    left. destruct r; subst s'; reflexivity.
  - apply dispatch_answer_cells in Hd.
    destruct Hd as (q & _ & _ & _ & _ & Hp & _). left. exact Hp.
  - apply dispatch_cases in Hd. destruct Hd as [_ ->]. left. reflexivity.
  - apply dispatch_cases in Hd. destruct Hd as [_ ->]. left. reflexivity.
  - apply dispatch_cases in Hd. subst s'. left.
    destruct (tick_cases s) as [->|[(_ & _ & ->)|(_ & _ & ->)]]; reflexivity.
Qed.

Lemma profile_changes_only_by_input_witness :
  profile (restartQuiz (setStep StepResults initialSession))
  = profile (setStep StepResults initialSession)
  \/ (step (setStep StepResults initialSession) = StepProfile
      /\ exists f v, EvRestart = EvInput f v
           /\ profile (restartQuiz (setStep StepResults initialSession))
              = withField f v (profile (setStep StepResults initialSession))).
Proof.
  apply (profile_changes_only_by_input EvRestart
           (setStep StepResults initialSession)).
  reflexivity.
Defined.

(** X4. From the quiz or the results step, short of a restart, no event
    touches the question set, and the answers are only ever extended by
    the clicked option: none is rewritten or removed. *)
Theorem quiz_data_only_grows (e : Event) (s s' : Session) :
  dispatch e s = Some s' ->
  step s = StepQuiz \/ step s = StepResults ->
  e <> EvRestart ->
  questions s' = questions s
  /\ (answers s' = answers s
      \/ exists idx, e = EvAnswer idx /\ step s = StepQuiz
           /\ answers s' = answers s ++ [Z.of_nat idx]).
Proof.
  intros Hd Hstep Hne. destruct e.
  - apply dispatch_cases in Hd. destruct Hd as [Hst _].
    destruct Hstep; congruence.
  - apply dispatch_cases in Hd. destruct Hd as [Hst _].
    destruct Hstep; congruence.
  - apply dispatch_cases in Hd. destruct Hd as [Hst _].
    destruct Hstep; congruence.
  - apply dispatch_answer_cells in Hd.
    destruct Hd as (q & Hr & _ & Ha & Hq & _).
    apply render_quiz in Hr. destruct Hr as (Hst & _).
    split; [exact Hq|]. right. eauto.
  - apply dispatch_cases in Hd. destruct Hd as [_ ->]. auto.
  - contradiction.
  - apply dispatch_cases in Hd. subst s'.
    destruct (tick_cases s) as [->|[(_ & _ & ->)|(_ & _ & ->)]]; auto.
Qed.

Lemma quiz_data_only_grows_witness :
  questions (tick (setStep StepQuiz initialSession))
  = questions (setStep StepQuiz initialSession).
Proof.
  apply (quiz_data_only_grows EvTick (setStep StepQuiz initialSession)
           (tick (setStep StepQuiz initialSession)) eq_refl);
    [left; reflexivity|discriminate].
Defined.

(** X5. In every reachable session an error message is pending only in
    the profile step, whose page shows it: loading, quiz and results never
    hold a message nobody sees. *)
Theorem error_only_on_profile_page (s : Session) :
  reachable s ->
  error s <> None ->
  step s = StepProfile /\ render s = ViewProfile (error s).
Proof.
  intros Hreach Herr.
  pose proof (reachable_SessionShape s Hreach) as (_ & Hout & _).
  assert (Hst : step s = StepProfile).
  { destruct (decide (step s = StepProfile)) as [H|H]; [exact H|].
    destruct (Hout H) as [Hnone _]. contradiction. }
  split; [exact Hst|]. unfold render. rewrite Hst. reflexivity.
Qed.

Lemma error_only_on_profile_page_witness :
  step (handleProfileSubmit initialSession) = StepProfile
  /\ render (handleProfileSubmit initialSession)
     = ViewProfile (error (handleProfileSubmit initialSession)).
Proof.
  apply (error_only_on_profile_page (handleProfileSubmit initialSession));
    [exists [EvSubmit]; reflexivity|discriminate].
Defined.

(** X6. Outside the profile step a reachable session holds a complete
    profile (no empty field), so the report never has a blank identity
    line; and since a restart keeps it, the submission right after a
    restart is accepted without typing anything. *)
Theorem profile_complete_after_submission (s : Session) :
  reachable s ->
  step s <> StepProfile ->
  (name (profile s) <> "" /\ rank (profile s) <> "" /\ vessel (profile s) <> "")
  /\ (step s = StepResults ->
      run [EvRestart; EvSubmit] s
      = Some (setStep StepLoading (restartQuiz s))).
Proof.
  intros Hreach Hst.
  pose proof (reachable_SessionShape s Hreach) as (_ & Hout & _).
  destruct (Hout Hst) as (_ & Hn & Hr & Hv).
  split; [auto|].
  intros Hres. cbn [run].
  unfold dispatch at 1, handler, render. rewrite Hres.
  cbn [fmap option_fmap option_map].
  rewrite timerEffect_inert by (cbn; discriminate).
  unfold dispatch, handler, render. cbn [step restartQuiz setTimeLeft setError
    setCurrentQuestionIndex setAnswers setQuestions setStep].
  cbn [fmap option_fmap option_map].
  unfold handleProfileSubmit. cbn [profile restartQuiz setTimeLeft setError
    setCurrentQuestionIndex setAnswers setQuestions setStep].
  apply falsy_false in Hn, Hr, Hv. rewrite Hn, Hr, Hv. cbn [orb].
  rewrite timerEffect_inert by (cbn; discriminate).
  reflexivity.
Qed.

Lemma profile_complete_after_submission_witness :
  name (profile (handleProfileSubmit
                   (setProfile {| name := "A B"; rank := "Officer"; vessel := "MV X" |}
                      initialSession))) <> "".
Proof.
  apply (profile_complete_after_submission
           (handleProfileSubmit
              (setProfile {| name := "A B"; rank := "Officer"; vessel := "MV X" |}
                 initialSession))).
  - exists fillProfile. reflexivity.
  - discriminate.
Defined.

(** X7. Rendering a reachable session never reads a question that does
    not exist.  The page is blank exactly during a quiz over an empty
    question set, and a blank page offers nothing: only the firing of the
    interval is left. *)
Theorem render_never_fails (s : Session) :
  reachable s ->
  render s <> ViewError
  /\ (render s = ViewNull <-> step s = StepQuiz /\ questions s = [])
  /\ (render s = ViewNull -> forall e, e <> EvTick -> dispatch e s = None).
Proof.
  intros Hreach.
  pose proof (reachable_SessionInv s Hreach) as [_ Hs].
  assert (Hquiz : step s = StepQuiz ->
                  (questions s = [] /\ render s = ViewNull)
                  \/ (questions s <> [] /\ exists q, render s = ViewQuiz q)).
  { intros Hq. rewrite Hq in Hs. destruct Hs as (_ & Hlen & Hcur).
    unfold render, questions_length in *. rewrite Hq.
    destruct (questions s) as [|q0 qs] eqn:Hqs.
    - left. auto.
    - right. split; [discriminate|].
      destruct Hcur as [Hcur|[_ Hnil]]; [|discriminate].
      cbn [length] in *.
      destruct (Z.ltb_spec 0 (Z.of_nat (S (length qs)))); [|lia].
      unfold jsIndex. destruct (Z.ltb_spec (currentQuestionIndex s) 0); [lia|].
      destruct (lookup_lt_is_Some_2 (q0 :: qs) (Z.to_nat (currentQuestionIndex s)))
        as [q Hq'].
      { cbn [length]. lia. }
      rewrite Hq'. eauto. }
  split; [|split].
  - destruct (step s) eqn:Hst; try (unfold render; rewrite Hst; discriminate).
    destruct (Hquiz eq_refl) as [[_ ->]|[_ [q ->]]]; discriminate.
  - split.
    + intros Hnull.
      destruct (step s) eqn:Hst;
        try (unfold render in Hnull; rewrite Hst in Hnull; discriminate).
      destruct (Hquiz eq_refl) as [[Hqs _]|[_ [q Hq]]]; [auto|congruence].
    + intros [Hq Hqs]. destruct (Hquiz Hq) as [[_ H]|[H _]]; [exact H|contradiction].
  - intros Hnull e He. destruct e; try contradiction;
      unfold dispatch, handler; rewrite Hnull; reflexivity.
Qed.

Lemma render_never_fails_witness :
  render initialSession <> ViewError.
Proof.
  apply (render_never_fails initialSession). exists []. reflexivity.
Defined.

(** X8. During the quiz of a reachable session no option button is
    highlighted: the highlight test reads the answer at the current index,
    and none is recorded there yet. *)
Theorem no_option_highlighted (s : Session) :
  reachable s ->
  step s = StepQuiz ->
  forall idx : nat, isSelected s idx = false.
Proof.
  intros Hreach Hq idx.
  pose proof (reachable_SessionInv s Hreach) as [_ Hs].
  rewrite Hq in Hs. destruct Hs as (_ & Hlen & _).
  unfold isSelected, jsIndex.
  destruct (Z.ltb_spec (currentQuestionIndex s) 0); [reflexivity|].
  rewrite lookup_ge_None_2 by lia. reflexivity.
Qed.

Lemma no_option_highlighted_witness :
  isSelected
    (generateQuiz (GenParsed [sampleQuestion])
       (handleProfileSubmit
          (setProfile {| name := "A B"; rank := "Officer"; vessel := "MV X" |}
             initialSession))) 1 = false.
Proof.
  apply no_option_highlighted; [|reflexivity].
  exists (fillProfile ++ [EvGenerated (GenParsed [sampleQuestion])]).
  reflexivity.
Defined.

(** X9. In every reachable session each recorded answer belongs to a
    question of the set and is the index of one of that question's options,
    so the report's line of the user's answer never prints an undefined
    option. *)
Theorem answers_are_options (s : Session) :
  reachable s ->
  forall (i : nat) (a : Z),
    answers s !! i = Some a ->
    exists q t,
      questions s !! i = Some q
      /\ 0 <= a < Z.of_nat (length (options q))
      /\ jsIndex (options q) a = Some t
      /\ showOptional (jsIndex (options q) a) = t.
Proof.
  intros Hreach i a Hi.
  pose proof (reachable_SessionShape s Hreach) as (_ & _ & Hans).
  destruct (Hans i a Hi) as (q & t & Hq & Ht).
  exists q, t. split; [exact Hq|].
  split; [apply (jsIndex_Some _ _ _ Ht)|].
  split; [exact Ht|]. rewrite Ht. reflexivity.
Qed.

Lemma answers_are_options_witness :
  exists q t,
    [sampleQuestion] !! 0%nat = Some q
    /\ 0 <= 1 < Z.of_nat (length (options q))
    /\ jsIndex (options q) 1 = Some t
    /\ showOptional (jsIndex (options q) 1) = t.
Proof.
  apply (answers_are_options
           (setStep StepResults
              (setAnswers [1]
                 (generateQuiz (GenParsed [sampleQuestion])
                    (handleProfileSubmit
                       (setProfile
                          {| name := "A B"; rank := "Officer"; vessel := "MV X" |}
                          initialSession)))))
           ltac:(exists (fillProfile
                           ++ [EvGenerated (GenParsed [sampleQuestion]);
                               EvAnswer 1%nat]); reflexivity)
           0%nat 1 eq_refl).
Defined.

(** * The quiz ends in time *)

Lemma steps_from_results (e : Event) (s s' : Session) :
  step s = StepResults -> dispatch e s = Some s' ->
  step s' = StepResults \/ e = EvRestart.
Proof.
  intros Hst Hd. destruct e.
  - apply dispatch_cases in Hd. destruct Hd as [H _]. congruence.
  - apply dispatch_cases in Hd. destruct Hd as [H _]. congruence.
  - apply dispatch_cases in Hd. destruct Hd as [H _]. congruence.
  - apply dispatch_answer_cells in Hd. destruct Hd as (q & Hr & _).
    apply render_quiz in Hr. destruct Hr as [H _]. congruence.
  - apply dispatch_cases in Hd. destruct Hd as [_ ->]. auto.
  - auto.
  - apply dispatch_cases in Hd. subst s'. left.
    rewrite tick_inert; [exact Hst|]. rewrite Hst. discriminate.
Qed.

Lemma results_stay_without_restart (evs : list Event) :
  forall s s' : Session,
    step s = StepResults ->
    ~ In EvRestart evs ->
    run evs s = Some s' ->
    step s' = StepResults.
Proof.
  induction evs as [|e evs IH]; intros s s' Hst Hno Hrun.
  - cbn in Hrun. injection Hrun as <-. exact Hst.
  - cbn [run] in Hrun. destruct (dispatch e s) as [s1|] eqn:Hd; [|discriminate].
    apply (IH s1 s'); [|intros H; apply Hno; right; exact H|exact Hrun].
    pose proof (steps_from_results e s s1 Hst Hd) as [H|H]; [exact H|].
    exfalso. apply Hno. left. exact H.
Qed.

(** X10. A quiz cannot outlast its clock: from a quiz with time on the
    clock, whatever the candidate clicks in between, once the interval has
    fired as many times as seconds remained the session is in the results
    step, and stays there until a restart. *)
Theorem quiz_ends_with_the_clock (evs : list Event) :
  forall s s' : Session,
    step s = StepQuiz ->
    0 < timeLeft s ->
    ~ In EvRestart evs ->
    run evs s = Some s' ->
    timeLeft s <= Z.of_nat (countTicks evs) ->
    step s' = StepResults.
Proof.
  induction evs as [|e evs IH]; intros s s' Hq Hpos Hno Hrun Hticks.
  - cbn in Hticks. lia.
  - cbn [run] in Hrun. destruct (dispatch e s) as [s1|] eqn:Hd; [|discriminate].
    assert (Hno' : ~ In EvRestart evs) by (intros H; apply Hno; right; exact H).
    destruct e.
    + apply dispatch_cases in Hd. destruct Hd as [Hst _]. congruence.
    + apply dispatch_cases in Hd. destruct Hd as [Hst _]. congruence.
    + apply dispatch_cases in Hd. destruct Hd as [Hst _]. congruence.
    + apply dispatch_answer_cells in Hd.
      destruct Hd as (q & _ & _ & _ & _ & _ & _ & Ht & [Hs1|Hs1]).
      * apply (IH s1 s'); auto; [lia|]. unfold countTicks in *. cbn in Hticks. lia.
      * exact (results_stay_without_restart evs s1 s' Hs1 Hno' Hrun).
    + apply dispatch_cases in Hd. destruct Hd as [Hst _]. congruence.
    + apply dispatch_cases in Hd. destruct Hd as [Hst _]. congruence.
    + apply dispatch_cases in Hd. subst s1.
      unfold countTicks in Hticks. cbn [List.filter isTick length] in Hticks.
      destruct (tick_cases s) as [Heq|[(_ & H1 & Heq)|(_ & H1 & Heq)]].
      * exfalso. unfold tick, timerArmed in Heq.
        rewrite bool_decide_eq_true_2 in Heq by exact Hq.
        destruct (Z.ltb_spec 0 (timeLeft s)); [|lia]. cbn [andb] in Heq.
        pose proof (f_equal timeLeft Heq) as Htl.
        destruct (timerEffect_fields (intervalCallback s)) as (_ & _ & _ & Hf & _).
        rewrite Hf in Htl. cbn in Htl. lia.
      * rewrite Heq in Hrun.
        apply (IH (setTimeLeft (timeLeft s - 1) s) s');
          [exact Hq|cbn; lia|exact Hno'|exact Hrun|].
        unfold countTicks. cbn. lia.
      * rewrite Heq in Hrun.
        exact (results_stay_without_restart evs
                 (setStep StepResults (setTimeLeft 0 s)) s' eq_refl Hno' Hrun).
Qed.

Lemma quiz_ends_with_the_clock_witness :
  step (setStep StepResults (setTimeLeft 0 (setTimeLeft 2 (setStep StepQuiz initialSession))))
  = StepResults.
Proof.
  apply (quiz_ends_with_the_clock [EvTick; EvTick]
           (setTimeLeft 2 (setStep StepQuiz initialSession)));
    [reflexivity|cbn; lia| |reflexivity|cbn; lia].
  intros H. not_listed H.
Defined.

Lemma render_setTimeLeft (v : Z) (s : Session) :
  render (setTimeLeft v s) = render s.
Proof. reflexivity. Qed.

(** X11. With more than one second on the clock, a firing of the interval
    and a click on an option can come in either order: the two orders
    offer the click alike, record the same answer and reach the same step
    and index, and when the question is not the last one the very same
    session; after the last question only the clock differs, stopped
    one second earlier or later. *)
Theorem tick_and_answer_commute (s : Session) (idx : nat) :
  step s = StepQuiz ->
  1 < timeLeft s ->
  match run [EvTick; EvAnswer idx] s, run [EvAnswer idx; EvTick] s with
  | Some a, Some b =>
      setTimeLeft 0 a = setTimeLeft 0 b
      /\ (currentQuestionIndex s < questions_length s - 1 -> a = b)
  | None, None => True
  | _, _ => False
  end.
Proof.
  intros Hq Ht. cbn [run]. unfold dispatch, handler.
  rewrite (tick_running s Hq Ht), render_setTimeLeft.
  destruct (render s) as [err| |q|r| |]; cbn [fmap option_fmap option_map];
    try exact I.
  destruct (idx <? length (options q))%nat; cbn [fmap option_fmap option_map];
    [|exact I].
  unfold handleAnswer, questions_length.
  cbn [currentQuestionIndex questions answers setTimeLeft].
  destruct (Z.ltb_spec (currentQuestionIndex s)
              (Z.of_nat (length (questions s)) - 1)) as [Hlt|Hge].
  - rewrite !timerEffect_armed by (cbn; lia).
    rewrite tick_running by (cbn; auto; lia).
    split; [reflexivity|]. intros _. reflexivity.
  - rewrite !timerEffect_inert by (cbn; discriminate).
    rewrite tick_inert by (cbn; discriminate).
    split; [reflexivity|]. intros H. unfold questions_length in H. lia.
Qed.

Lemma tick_and_answer_commute_witness :
  match
    run [EvTick; EvAnswer 1%nat]
      (generateQuiz (GenParsed [sampleQuestion; sampleQuestion]) initialSession),
    run [EvAnswer 1%nat; EvTick]
      (generateQuiz (GenParsed [sampleQuestion; sampleQuestion]) initialSession)
  with
  | Some a, Some b =>
      setTimeLeft 0 a = setTimeLeft 0 b
      /\ (currentQuestionIndex
            (generateQuiz (GenParsed [sampleQuestion; sampleQuestion])
               initialSession)
          < questions_length
              (generateQuiz (GenParsed [sampleQuestion; sampleQuestion])
                 initialSession) - 1 -> a = b)
  | None, None => True
  | _, _ => False
  end.
Proof.
  apply (tick_and_answer_commute
           (generateQuiz (GenParsed [sampleQuestion; sampleQuestion])
              initialSession) 1%nat);
    [reflexivity|cbn; lia].
Defined.

(** * Further facts about the score *)

Lemma filter_none {A : Type} (f : A -> bool) (l : list A) :
  (forall x, In x l -> f x = false) -> List.filter f l = [].
Proof.
  induction l as [|x l IH]; intros H; [reflexivity|].
  cbn. rewrite (H x) by (left; reflexivity).
  apply IH. intros y Hy. apply H. right. exact Hy.
Qed.

Lemma filter_seq_bound (f : nat -> bool) (n m : nat) :
  (forall i, f i = true -> (i < m)%nat) ->
  (length (List.filter f (seq 0 n)) <= m)%nat.
Proof.
  intros Hf. destruct (Nat.le_gt_cases n m) as [Hle|Hgt].
  - etransitivity; [apply filter_length_le|]. rewrite length_seq. exact Hle.
  - replace n with (m + (n - m))%nat by lia.
    rewrite seq_app, List.filter_app, length_app.
    rewrite (filter_none f (seq (0 + m) (n - m))).
    + pose proof (filter_length_le f (seq 0 m)) as H.
      rewrite length_seq in H. cbn. lia.
    + intros i Hi. apply in_seq in Hi.
      destruct (f i) eqn:Hfi; [|reflexivity].
      apply Hf in Hfi. lia.
Qed.

Lemma filter_length_full {A : Type} (f : A -> bool) (l : list A) :
  length (List.filter f l) = length l <-> (forall x, In x l -> f x = true).
Proof.
  induction l as [|x l IH]; [cbn; tauto|].
  cbn [List.filter]. destruct (f x) eqn:Hfx.
  - cbn [length]. split.
    + intros Hlen y [<-|Hy]; [exact Hfx|].
      apply IH; [lia|exact Hy].
    + intros H. f_equal. apply IH. intros y Hy. apply H. right. exact Hy.
  - split.
    + intros Hlen. pose proof (filter_length_le f l). cbn [length] in Hlen. lia.
    + intros H. rewrite (H x) in Hfx by (left; reflexivity). discriminate.
Qed.

Lemma hitAt_answered (qs : list QuizQuestion) (ans : list Z) (i : nat) :
  hitAt qs ans i = true -> (i < length ans)%nat /\ (i < length qs)%nat.
Proof.
  unfold hitAt.
  destruct (qs !! i) eqn:Hq; [|discriminate].
  destruct (ans !! i) eqn:Ha; [|discriminate].
  intros _. split; eapply lookup_lt_Some; eassumption.
Qed.

(** X12. The score never exceeds the number of answers recorded, nor the
    number of questions; so a pass needs at least seven questions in the
    set and seven answers given: a shorter set, or a sitting cut off by the
    clock before the seventh answer, cannot be passed. *)
Theorem score_needs_answers (s : Session) :
  (calculateScore s <= length (answers s))%nat
  /\ (calculateScore s <= length (questions s))%nat
  /\ (rv_passed (resultsView s) = true ->
      (7 <= length (questions s))%nat /\ (7 <= length (answers s))%nat).
Proof.
  assert (Ha : (calculateScore s <= length (answers s))%nat).
  { rewrite calculateScore_filter. apply filter_seq_bound.
    intros i Hi. apply (hitAt_answered _ _ _ Hi). }
  pose proof (calculateScore_le s) as Hq.
  split; [exact Ha|]. split; [exact Hq|].
  cbn [resultsView rv_passed]. rewrite passMark_spec. lia.
Qed.

Lemma score_needs_answers_witness :
  (7 <= length (repeat sampleQuestion 10))%nat
  /\ (7 <= length (repeat 1 7 ++ repeat 0 3))%nat.
Proof.
  apply (score_needs_answers
           (setAnswers (repeat 1 7 ++ repeat 0 3)
              (setQuestions (repeat sampleQuestion 10) initialSession))).
  reflexivity.
Defined.

(** X13. The score equals the number of questions exactly when every
    question has its correct index recorded as the answer. *)
Theorem full_score_iff_all_correct (s : Session) :
  calculateScore s = length (questions s)
  <-> (forall (i : nat) (q : QuizQuestion),
         questions s !! i = Some q ->
         answers s !! i = Some (correctAnswerIndex q)).
Proof.
  rewrite calculateScore_filter.
  pose proof (filter_length_full (hitAt (questions s) (answers s))
                (seq 0 (length (questions s)))) as Hfull.
  rewrite length_seq in Hfull. rewrite Hfull. clear Hfull. split.
  - intros H i q Hq.
    assert (Hin : In i (seq 0 (length (questions s)))).
    { apply in_seq. apply lookup_lt_Some in Hq. lia. }
    specialize (H i Hin). unfold hitAt in H. rewrite Hq in H.
    destruct (answers s !! i) as [a|]; [|discriminate].
    apply bool_decide_eq_true in H. congruence.
  - intros H i Hin. apply in_seq in Hin.
    destruct (lookup_lt_is_Some_2 (questions s) i) as [q Hq]; [lia|].
    unfold hitAt. rewrite Hq, (H i q Hq).
    apply bool_decide_eq_true. reflexivity.
Qed.

(** X14. Answering the next unanswered question raises the score by one
    when the chosen index is that question's correct index and leaves it
    unchanged otherwise: answers already given never change their worth. *)
Theorem answer_scores_at_most_one (s : Session) (o : Z) (q : QuizQuestion) :
  questions s !! length (answers s) = Some q ->
  calculateScore (handleAnswer o s)
  = (calculateScore s + (if (o =? correctAnswerIndex q)%Z then 1 else 0))%nat.
Proof.
  intros Hq.
  assert (Hsame : calculateScore (handleAnswer o s)
                  = calculateScore (setAnswers (answers s ++ [o]) s)).
  { unfold handleAnswer. destruct (_ <? _); reflexivity. }
  rewrite Hsame, !calculateScore_filter.
  cbn [questions answers setAnswers].
  set (k := length (answers s)) in *.
  pose proof (lookup_lt_Some _ _ _ Hq) as Hk.
  replace (length (questions s))
    with (k + S (length (questions s) - S k))%nat by lia.
  rewrite seq_app. cbn [seq]. rewrite !List.filter_app. cbn [List.filter].
  rewrite !length_app.
  assert (Hbefore : List.filter (hitAt (questions s) (answers s ++ [o])) (seq 0 k)
                    = List.filter (hitAt (questions s) (answers s)) (seq 0 k)).
  { apply filter_ext_in. intros i Hi. apply in_seq in Hi.
    unfold hitAt. rewrite lookup_app_l by (fold k; lia). reflexivity. }
  assert (Hafter : forall ans',
             (length ans' <= S k)%nat ->
             List.filter (hitAt (questions s) ans')
               (seq (S (0 + k)) (length (questions s) - S k)) = []).
  { intros ans' Hlen. apply filter_none. intros i Hi. apply in_seq in Hi.
    unfold hitAt. rewrite (lookup_ge_None_2 ans') by lia.
    destruct (questions s !! i); reflexivity. }
  rewrite Hbefore.
  rewrite (Hafter (answers s ++ [o])) by (rewrite length_app; cbn; fold k; lia).
  rewrite (Hafter (answers s)) by (fold k; lia).
  assert (Hold : hitAt (questions s) (answers s) (0 + k) = false).
  { unfold hitAt. cbn [Nat.add]. rewrite (lookup_ge_None_2 (answers s)) by (fold k; lia).
    destruct (questions s !! k); reflexivity. }
  assert (Hnew : hitAt (questions s) (answers s ++ [o]) (0 + k)
                 = (o =? correctAnswerIndex q)).
  { unfold hitAt. cbn [Nat.add]. rewrite Hq.
    rewrite lookup_app_r by (fold k; lia).
    replace (k - length (answers s))%nat with 0%nat by (fold k; lia). cbn.
    destruct (Z.eqb_spec o (correctAnswerIndex q)) as [->|Hne].
    - apply bool_decide_eq_true. reflexivity.
    - apply bool_decide_eq_false. exact Hne. }
  rewrite Hold, Hnew.
  destruct (o =? correctAnswerIndex q); cbn [length]; lia.
Qed.

Lemma answer_scores_at_most_one_witness :
  calculateScore
    (handleAnswer 1 (setQuestions [sampleQuestion; sampleQuestion] initialSession))
  = 1%nat.
Proof.
  apply (answer_scores_at_most_one
           (setQuestions [sampleQuestion; sampleQuestion] initialSession)
           1 sampleQuestion).
  reflexivity.
Defined.

(** * The clock string and the percentage *)

Lemma clock_table :
  forallb clockChecked (map Z.of_nat (seq 0 (Z.to_nat 6000))) = true.
Proof. vm_compute. reflexivity. Qed.

(** X15. For every number of seconds from 0 to 5999, and so for every
    clock a session can show, [formatTime] gives five characters: two
    digits of minutes, a colon and two digits of seconds, which read back
    as the same number of seconds; distinct times never share a string. *)
Theorem formatTime_is_mm_ss (seconds : Z) :
  0 <= seconds < 6000 ->
  formatTime seconds = clockDigits seconds
  /\ String.length (formatTime seconds) = 5%nat
  /\ readClock (formatTime seconds) = Some seconds
  /\ (forall other, 0 <= other < 6000 ->
        formatTime other = formatTime seconds -> other = seconds).
Proof.
  assert (Hall : forall v, 0 <= v < 6000 ->
                   formatTime v = clockDigits v /\ readClock (formatTime v) = Some v).
  { intros v Hv.
    pose proof clock_table as Htab. rewrite forallb_forall in Htab.
    specialize (Htab v). unfold clockChecked in Htab.
    rewrite andb_true_iff in Htab. destruct Htab as [Hd Hr].
    - apply in_map_iff. exists (Z.to_nat v). split; [lia|].
      apply in_seq. lia.
    - apply String.eqb_eq in Hd. split; [exact Hd|].
      destruct (readClock (formatTime v)) as [w|]; [|discriminate].
      apply Z.eqb_eq in Hr. congruence. }
  intros Hs. destruct (Hall seconds Hs) as [Hd Hr].
  split; [exact Hd|]. split; [rewrite Hd; reflexivity|]. split; [exact Hr|].
  intros other Ho Heq. destruct (Hall other Ho) as [_ Hr'].
  rewrite Heq, Hr in Hr'. congruence.
Qed.

Lemma formatTime_is_mm_ss_witness :
  formatTime 599 = clockDigits 599.
Proof.
  apply (formatTime_is_mm_ss 599). lia.
Defined.

Lemma percentage_table :
  forallb (fun total => forallb (percentageChecked total) (seq 0 (S total)))
    (seq 1 100) = true.
Proof. vm_compute. reflexivity. Qed.

(** X16. For question sets of up to 100 questions the percentage of the
    score box is an integer between 0 and 100, equal to the exact
    percentage rounded half up or one below it (the double arithmetic can
    fall just short of a half); for up to 39 questions, and so for the ten
    of a quiz, it is exactly the rounded percentage. *)
Theorem percentage_up_to_100_questions (score total : nat) :
  (0 < total <= 100)%nat ->
  (score <= total)%nat ->
  exists p : Z,
    percentage score total = RoundedInt p
    /\ 0 <= p <= 100
    /\ exactPercentage score total - 1 <= p <= exactPercentage score total
    /\ ((total <= 39)%nat -> p = exactPercentage score total).
Proof.
  intros Ht Hs.
  pose proof percentage_table as Htab. rewrite forallb_forall in Htab.
  specialize (Htab total ltac:(apply in_seq; lia)).
  rewrite forallb_forall in Htab.
  specialize (Htab score ltac:(apply in_seq; lia)).
  unfold percentageChecked in Htab.
  destruct (percentage score total) as [| |p]; try discriminate.
  exists p. split; [reflexivity|].
  rewrite !andb_true_iff, orb_true_iff in Htab.
  destruct Htab as ((((H0 & H100) & Hlo) & Hhi) & Hex).
  apply Z.leb_le in H0, H100, Hlo, Hhi.
  split; [lia|]. split; [lia|].
  intros H39. destruct Hex as [Hex|Hex].
  - apply Nat.ltb_lt in Hex. lia.
  - apply Z.eqb_eq in Hex. exact Hex.
Qed.

Lemma percentage_up_to_100_questions_witness :
  exists p : Z,
    percentage 7 10 = RoundedInt p
    /\ 0 <= p <= 100
    /\ exactPercentage 7 10 - 1 <= p <= exactPercentage 7 10
    /\ ((10 <= 39)%nat -> p = exactPercentage 7 10).
Proof.
  apply (percentage_up_to_100_questions 7 10); lia.
Defined.

(** * The file name of the report *)








(** * Pages, footers and the placing of the review blocks *)




Section PageFacts.

Variable splitTextToSize : Font -> string -> Z -> list string.
Variable date : string.

(** The first line and the extent of a review block started at [yPos]. *)
Lemma reviewQuestion_placing (ans : list Z) (q : QuizQuestion) (i : nat)
    (yPos : Z) :
  let top := if 250 <? yPos then 20 else yPos in
  questionLineYs (fst (reviewQuestion splitTextToSize ans q i ([], yPos)))
  = [top]
  /\ top + 25 <= snd (reviewQuestion splitTextToSize ans q i ([], yPos))
  /\ forallb blockCall (fst (reviewQuestion splitTextToSize ans q i ([], yPos)))
     = true
  /\ length (List.filter isAddPage
               (fst (reviewQuestion splitTextToSize ans q i ([], yPos))))
     = (if 250 <? yPos then 1%nat else 0%nat).
Proof.
  unfold reviewQuestion.
  destruct (250 <? yPos), (isHit ans q i); cbn [negb fst snd app];
    (split; [reflexivity|]); (split; [lia|]); split; reflexivity.
Qed.

Lemma forEach_review_step (ans : list Z) (q : QuizQuestion)
    (qs : list QuizQuestion) (i : nat) (yPos : Z) :
  fst (forEach (reviewQuestion splitTextToSize ans) (q :: qs) i ([], yPos))
  = fst (reviewQuestion splitTextToSize ans q i ([], yPos))
    ++ fst (forEach (reviewQuestion splitTextToSize ans) qs (S i)
              ([], snd (reviewQuestion splitTextToSize ans q i ([], yPos)))).
Proof.
  cbn [forEach].
  destruct (reviewQuestion splitTextToSize ans q i ([], yPos)) as [block yEnd].
  cbn [fst snd]. apply forEach_review_appends.
Qed.

Lemma forEach_review_placing (ans : list Z) (qs : list QuizQuestion) :
  forall (i : nat) (yPos : Z),
    let doc := fst (forEach (reviewQuestion splitTextToSize ans) qs i ([], yPos)) in
    length (questionLineYs doc) = length qs
    /\ Forall (fun y => Z.min 20 yPos <= y <= 250) (questionLineYs doc)
    /\ spaced (questionLineYs doc)
    /\ head (questionLineYs doc)
       = (fun _ => if 250 <? yPos then 20 else yPos) <$> head qs
    /\ forallb blockCall doc = true
    /\ (length (List.filter isAddPage doc) <= length qs)%nat.
Proof.
  induction qs as [|q qs IH]; intros i yPos doc.
  - subst doc. cbn. repeat split; constructor.
  - subst doc. rewrite forEach_review_step.
    destruct (reviewQuestion_placing ans q i yPos) as (Hys & Hend & Hcalls & Hpages).
    cbv zeta in Hys, Hend.
    set (yEnd := snd (reviewQuestion splitTextToSize ans q i ([], yPos))) in *.
    specialize (IH (S i) yEnd). cbv zeta in IH.
    destruct IH as (IHlen & IHall & IHsp & IHhd & IHcalls & IHpages).
    assert (Hlines : questionLineYs
                       (fst (reviewQuestion splitTextToSize ans q i ([], yPos))
                        ++ fst (forEach (reviewQuestion splitTextToSize ans) qs
                                  (S i) ([], yEnd)))
                     = (if 250 <? yPos then 20 else yPos)
                       :: questionLineYs
                            (fst (forEach (reviewQuestion splitTextToSize ans) qs
                                    (S i) ([], yEnd)))).
    { unfold questionLineYs in *. rewrite omap_app, Hys. reflexivity. }
    rewrite Hlines. clear Hlines.
    set (ys := questionLineYs _) in *.
    split; [cbn [length]; lia|]. split; [|split; [|split; [reflexivity|split]]].
    + constructor.
      * destruct (Z.ltb_spec 250 yPos); lia.
      * eapply Forall_impl; [exact IHall|]. cbn. intros y Hy.
        destruct (Z.ltb_spec 250 yPos); lia.
    + destruct ys as [|y2 rest] eqn:Hrest; [exact I|].
      cbn [spaced]. split; [|exact IHsp].
      destruct qs as [|q' qs']; [discriminate IHlen|].
      cbn in IHhd. injection IHhd as ->.
      destruct (Z.ltb_spec 250 yEnd); [left; reflexivity|right; exact Hend].
    + rewrite forallb_app, Hcalls, IHcalls. reflexivity.
    + rewrite List.filter_app, length_app, Hpages. cbn [length].
      destruct (250 <? yPos); lia.
Qed.

Lemma reportFooter_plain (pageCount : nat) :
  length (List.filter isFooterText (reportFooter pageCount)) = pageCount
  /\ omap pageTurned (reportFooter pageCount) = seq 1 pageCount
  /\ List.filter isAddPage (reportFooter pageCount) = []
  /\ questionLineYs (reportFooter pageCount) = [].
Proof.
  unfold reportFooter. generalize 1%nat.
  induction pageCount as [|n IH]; intros k; [repeat split; reflexivity|].
  destruct (IH (S k)) as (IHf & IHp & IHa & IHy).
  cbn [seq flat_map]. unfold questionLineYs in *.
  rewrite !List.filter_app, !omap_app, length_app, IHf, IHp, IHa, IHy.
  repeat split; reflexivity.
Qed.

Lemma generatePDF_unfold (s : Session) :
  let doc := reportHeader date s
             ++ fst (forEach (reviewQuestion splitTextToSize (answers s))
                       (questions s) 0%nat ([], 110)) in
  generatePDF splitTextToSize date s
  = doc ++ reportFooter (getNumberOfPages doc) ++ [Save (reportFileName s)].
Proof.
  cbv zeta. unfold generatePDF.
  destruct (forEach _ _ _ (reportHeader date s, 110)) as [doc yEnd] eqn:Hfe.
  pose proof (forEach_review_appends splitTextToSize (answers s) (questions s)
                0%nat (reportHeader date s) 110) as Happ.
  rewrite Hfe in Happ. cbn [fst] in Happ. rewrite <- Happ. reflexivity.
Qed.

End PageFacts.


(** X19. The report paints one question line per question, in order;
    every one starts between 20 and 250 units down its page, the first at
    110; and a question line follows the previous one by at least 25 units
    unless it starts a new page at 20, so that review blocks never overlap
    on a page. *)
Theorem review_blocks_placed_down_the_page
    (splitTextToSize : Font -> string -> Z -> list string) (date : string)
    (s : Session) :
  let ys := questionLineYs (generatePDF splitTextToSize date s) in
  length ys = length (questions s)
  /\ Forall (fun y => 20 <= y <= 250) ys
  /\ spaced ys
  /\ (questions s <> [] -> head ys = Some 110).
Proof.
  cbv zeta. rewrite generatePDF_unfold. cbv zeta.
  destruct (forEach_review_placing splitTextToSize (answers s) (questions s)
              0%nat 110) as (Hlen & Hall & Hsp & Hhd & _ & _).
  set (review := fst (forEach _ _ _ _)) in *.
  destruct (reportFooter_plain
              (getNumberOfPages (reportHeader date s ++ review)))
    as (_ & _ & _ & Hfy).
  assert (Hhy : questionLineYs (reportHeader date s) = []) by reflexivity.
  unfold questionLineYs in *. rewrite !omap_app, Hhy, Hfy.
  cbn [app]. rewrite app_nil_r.
  split; [exact Hlen|]. split; [exact Hall|]. split; [exact Hsp|].
  intros Hne. rewrite Hhd. destruct (questions s); [contradiction|reflexivity].
Qed.

Lemma review_blocks_placed_down_the_page_witness :
  head (questionLineYs
          (generatePDF noWrap "2026-01-01"
             (setQuestions [sampleQuestion] initialSession)))
  = Some 110.
Proof.
  apply (review_blocks_placed_down_the_page noWrap "2026-01-01"
           (setQuestions [sampleQuestion] initialSession)).
  discriminate.
Defined.
